(** * PicoDrive web platform layer (src/platform/web/web.c)

    A shallow embedding of the Emscripten host adapter: the video mode
    callback, the audio flush callback, the input latch and the save-state
    stream callbacks with the two entry points that drive the core's
    serializer over them.

    Data model.  The file is the Emscripten/asm.js interface, so the C data
    model is ILP32: [int], [long] and [size_t] are all 32 bits wide.  A C
    integer is a [Z] and every conversion or arithmetic result is wrapped
    explicitly with [to_int] (signed) or [to_size_t] (unsigned).  Buffers are
    lists; a pointer that may be NULL is an [option]. *)

From Stdlib Require Import ZArith List Bool Lia.
From Stdlib Require Import Init.Byte Strings.Byte.
Import ListNotations.
Open Scope Z_scope.

(** ** Machine integers *)

Definition SIZE_MOD : Z := 2 ^ 32.
Definition INT_MAX : Z := 2 ^ 31 - 1.

(** Conversion to [size_t] (unsigned, 32 bits). *)
Definition to_size_t (z : Z) : Z := z mod SIZE_MOD.

(** Conversion to [int] / [long] (signed, 32 bits, two's complement). *)
Definition to_int (z : Z) : Z := (z + 2 ^ 31) mod SIZE_MOD - 2 ^ 31.

(** ** Faults and the error monad

    Behaviour the C standard leaves undefined, and a JavaScript exception
    inside an [EM_ASM] block, end the run with a [fault] that records what was
    attempted. *)

Inductive fault : Type :=
| NullDeref
| NullCall
| OOB_read (off n len : Z)
| OOB_write (off n len : Z)
| JsRangeError (n : Z).

Inductive result (A : Type) : Type :=
| Ok (a : A)
| Fault (f : fault).

Arguments Ok {A} a.
Arguments Fault {A} f.

Definition bind {A B : Type} (m : result A) (k : A -> result B) : result B :=
  match m with
  | Ok a => k a
  | Fault f => Fault f
  end.

Notation "x <- m ;; k" := (bind m (fun x => k))
  (at level 61, m at next level, right associativity).
Notation "' pat <- m ;; k" := (bind m (fun x => match x with pat => k end))
  (at level 61, pat pattern, m at next level, right associativity).

(** ** Memory *)

Definition buffer : Type := list byte.

Definition blen (b : buffer) : Z := Z.of_nat (length b).

Definition in_bounds (off n : Z) (b : buffer) : bool :=
  (0 <=? off) && (0 <=? n) && (off + n <=? blen b).

(** [memcpy(dst + doff, src + soff, n)]: the updated destination object, or
    the fault when either range leaves its object. *)
Definition memcpy (dst : buffer) (doff : Z) (src : buffer) (soff : Z) (n : Z)
  : result buffer :=
  if negb (in_bounds soff n src) then Fault (OOB_read soff n (blen src))
  else if negb (in_bounds doff n dst) then Fault (OOB_write doff n (blen dst))
  else Ok (firstn (Z.to_nat doff) dst
           ++ firstn (Z.to_nat n) (skipn (Z.to_nat soff) src)
           ++ skipn (Z.to_nat (doff + n)) dst).

(** Access through a pointer that may be NULL. *)
Definition deref {A : Type} (p : option A) : result A :=
  match p with
  | Some a => Ok a
  | None => Fault NullDeref
  end.

(** ** The save-state stream: [struct state_context] and its callbacks *)

Definition SEEK_SET : Z := 0.
Definition SEEK_CUR : Z := 1.
Definition SEEK_END : Z := 2.

Record state_context : Type := {
  load_buf : option buffer;
  save_buf : option buffer;
  size : Z;
  pos : Z
}.

Definition set_pos (ctx : state_context) (v : Z) : state_context :=
  {| load_buf := load_buf ctx; save_buf := save_buf ctx;
     size := size ctx; pos := v |}.

Definition set_save_buf (ctx : state_context) (b : buffer) : state_context :=
  {| load_buf := load_buf ctx; save_buf := Some b;
     size := size ctx; pos := pos ctx |}.

(** [state_read_cb(p, size, nmemb, file)].  [p] is the caller's destination
    object; the result carries the returned count, the destination after the
    copy and the context. *)
Definition state_read_cb (p : buffer) (esize nmemb : Z) (ctx : state_context)
  : result (Z * buffer * state_context) :=
  let copy (bsize : Z) :=
    src <- deref (load_buf ctx) ;;
    p' <- memcpy p 0 src (pos ctx) bsize ;;
    Ok (bsize, p', set_pos ctx (to_size_t (pos ctx + bsize))) in
  let bsize := to_size_t (esize * nmemb) in
  if to_size_t (pos ctx + bsize) >? size ctx then
    let bsize := to_size_t (size ctx - pos ctx) in
    if to_int bsize <=? 0 then Ok (0, p, ctx)
    else copy bsize
  else copy bsize.

(** [state_write_cb(p, size, nmemb, file)].  [p] is the caller's source
    object. *)
Definition state_write_cb (p : buffer) (esize nmemb : Z) (ctx : state_context)
  : result (Z * state_context) :=
  let copy (bsize : Z) :=
    dst <- deref (save_buf ctx) ;;
    dst' <- memcpy dst (pos ctx) p 0 bsize ;;
    Ok (bsize, set_pos (set_save_buf ctx dst') (to_size_t (pos ctx + bsize))) in
  let bsize := to_size_t (esize * nmemb) in
  if to_size_t (pos ctx + bsize) >? size ctx then
    let bsize := to_size_t (size ctx - pos ctx) in
    if to_int bsize <=? 0 then Ok (0, ctx)
    else copy bsize
  else copy bsize.

(** [state_skip_cb(p, size, nmemb, file)]: [p] is not touched. *)
Definition state_skip_cb (esize nmemb : Z) (ctx : state_context)
  : Z * state_context :=
  let bsize := to_size_t (esize * nmemb) in
  (bsize, set_pos ctx (to_size_t (pos ctx + bsize))).

(** [state_eof_cb(file)]. *)
Definition state_eof_cb (ctx : state_context) : Z :=
  if pos ctx >=? size ctx then 1 else 0.

(** [state_seek_cb(file, offset, whence)]: an unknown [whence] leaves the
    cursor alone; the result is [(int)ctx->pos]. *)
Definition state_seek_cb (offset whence : Z) (ctx : state_context)
  : Z * state_context :=
  let ctx' :=
    if whence =? SEEK_SET then set_pos ctx (to_size_t offset)
    else if whence =? SEEK_CUR then set_pos ctx (to_size_t (pos ctx + offset))
    else if whence =? SEEK_END then set_pos ctx (to_size_t (size ctx + offset))
    else ctx in
  (to_int (pos ctx'), ctx').

(** ** The core's serializer, seen from the platform layer

    [PicoStateFP] belongs to the emulation core.  The platform layer hands it
    an opaque [file] and four callbacks, so all it can do to the stream is
    call them and look at what they return.  One run of the core's
    [state_save] or [state_load] is therefore a finite tree of callback
    invocations that ends in the status the core reports. *)

Inductive serializer : Type :=
| Return (status : Z)
| CallRead (p : buffer) (esize nmemb : Z) (k : Z -> buffer -> serializer)
| CallWrite (p : buffer) (esize nmemb : Z) (k : Z -> serializer)
| CallEof (k : Z -> serializer)
| CallSeek (offset whence : Z) (k : Z -> serializer).

Definition readcb_t : Type :=
  buffer -> Z -> Z -> state_context -> result (Z * buffer * state_context).
Definition writecb_t : Type :=
  buffer -> Z -> Z -> state_context -> result (Z * state_context).
Definition eofcb_t : Type := state_context -> Z.
Definition seekcb_t : Type := Z -> Z -> state_context -> Z * state_context.

(** Calling through a callback pointer that was passed as NULL. *)
Definition call {A : Type} (f : option A) : result A :=
  match f with
  | Some g => Ok g
  | None => Fault NullCall
  end.

Fixpoint run_serializer (prog : serializer)
    (areadcb : option readcb_t) (awritecb : option writecb_t)
    (aeofcb : option eofcb_t) (aseekcb : option seekcb_t)
    (afile : state_context) : result (Z * state_context) :=
  match prog with
  | Return status => Ok (status, afile)
  | CallRead p esize nmemb k =>
      f <- call areadcb ;;
      '(r, p', afile') <- f p esize nmemb afile ;;
      run_serializer (k r p') areadcb awritecb aeofcb aseekcb afile'
  | CallWrite p esize nmemb k =>
      f <- call awritecb ;;
      '(r, afile') <- f p esize nmemb afile ;;
      run_serializer (k r) areadcb awritecb aeofcb aseekcb afile'
  | CallEof k =>
      f <- call aeofcb ;;
      run_serializer (k (f afile)) areadcb awritecb aeofcb aseekcb afile
  | CallSeek offset whence k =>
      f <- call aseekcb ;;
      let '(r, afile') := f offset whence afile in
      run_serializer (k r) areadcb awritecb aeofcb aseekcb afile'
  end.

(** [PicoStateFP(afile, is_save, readcb, writecb, eofcb, seekcb)]: the core
    runs its save program when [is_save] is nonzero, its load program
    otherwise. *)
Definition PicoStateFP (core : Z -> serializer) (afile : state_context)
    (is_save : Z) (readcb : option readcb_t) (writecb : option writecb_t)
    (eofcb : option eofcb_t) (seekcb : option seekcb_t)
  : result (Z * state_context) :=
  run_serializer (core is_save) readcb writecb eofcb seekcb afile.

(** ** Effects that leave the platform layer

    Calls into the core, stores to the core's globals and calls out to the
    host page are logged in program order. *)

Inductive pixel_format : Type := PDF_RGB555.

Inductive event : Type :=
| Ev_PicoDrawSetOutFormat (fmt : pixel_format) (use_32x_line_mode : Z)
| Ev_PicoDrawSetOutBuf (pitch : Z)
| Ev_onVideoModeChange (width height : Z)
| Ev_dirtyPal (v : Z)
| Ev_onAudioWrite (audioData : list Z)
| Ev_PicoStateFP (is_save : Z).

(** Which handlers the page has installed on [window]. *)
Record host_window : Type := {
  has_onVideoModeChange : bool;
  has_onAudioWrite : bool
}.

(** ** The statics of web.c *)

Definition VOUT_MAX_WIDTH : Z := 320.
Definition VOUT_MAX_HEIGHT : Z := 240.
Definition SND_RATE : Z := 44100.
Definition SND_MAX_SAMPLES : Z := SND_RATE / 50 * 2.
Definition STATE_MAX_SIZE : Z := 2 * 1024 * 1024.

Record web_state : Type := {
  vout_buf : list Z;
  vout_width : Z;
  vout_height : Z;
  vout_offset : Z;
  vm_current_start_line : Z;
  vm_current_line_count : Z;
  vm_current_start_col : Z;
  vm_current_col_count : Z;
  snd_buffer : list Z;
  input_state : list Z;
  emu_initialized : Z;
  game_loaded : Z;
  state_buffer : option buffer;
  state_size : Z;
  trace : list event
}.

(** The statics as their initialisers leave them. *)
Definition initial_state : web_state := {|
  vout_buf := repeat 0 (Z.to_nat (VOUT_MAX_WIDTH * VOUT_MAX_HEIGHT));
  vout_width := VOUT_MAX_WIDTH;
  vout_height := VOUT_MAX_HEIGHT;
  vout_offset := 0;
  vm_current_start_line := -1;
  vm_current_line_count := -1;
  vm_current_start_col := -1;
  vm_current_col_count := -1;
  snd_buffer := repeat 0 (Z.to_nat (SND_MAX_SAMPLES * 2));
  input_state := [0; 0];
  emu_initialized := 0;
  game_loaded := 0;
  state_buffer := None;
  state_size := 0;
  trace := []
|}.

Definition set_vm_current (st : web_state)
    (start_line line_count start_col col_count : Z) : web_state :=
  {| vout_buf := vout_buf st; vout_width := vout_width st;
     vout_height := vout_height st; vout_offset := vout_offset st;
     vm_current_start_line := start_line;
     vm_current_line_count := line_count;
     vm_current_start_col := start_col;
     vm_current_col_count := col_count;
     snd_buffer := snd_buffer st; input_state := input_state st;
     emu_initialized := emu_initialized st; game_loaded := game_loaded st;
     state_buffer := state_buffer st; state_size := state_size st;
     trace := trace st |}.

Definition set_vout_buf (st : web_state) (v : list Z) : web_state :=
  {| vout_buf := v; vout_width := vout_width st;
     vout_height := vout_height st; vout_offset := vout_offset st;
     vm_current_start_line := vm_current_start_line st;
     vm_current_line_count := vm_current_line_count st;
     vm_current_start_col := vm_current_start_col st;
     vm_current_col_count := vm_current_col_count st;
     snd_buffer := snd_buffer st; input_state := input_state st;
     emu_initialized := emu_initialized st; game_loaded := game_loaded st;
     state_buffer := state_buffer st; state_size := state_size st;
     trace := trace st |}.

Definition set_vout_width (st : web_state) (v : Z) : web_state :=
  {| vout_buf := vout_buf st; vout_width := v;
     vout_height := vout_height st; vout_offset := vout_offset st;
     vm_current_start_line := vm_current_start_line st;
     vm_current_line_count := vm_current_line_count st;
     vm_current_start_col := vm_current_start_col st;
     vm_current_col_count := vm_current_col_count st;
     snd_buffer := snd_buffer st; input_state := input_state st;
     emu_initialized := emu_initialized st; game_loaded := game_loaded st;
     state_buffer := state_buffer st; state_size := state_size st;
     trace := trace st |}.

Definition set_vout_height (st : web_state) (v : Z) : web_state :=
  {| vout_buf := vout_buf st; vout_width := vout_width st;
     vout_height := v; vout_offset := vout_offset st;
     vm_current_start_line := vm_current_start_line st;
     vm_current_line_count := vm_current_line_count st;
     vm_current_start_col := vm_current_start_col st;
     vm_current_col_count := vm_current_col_count st;
     snd_buffer := snd_buffer st; input_state := input_state st;
     emu_initialized := emu_initialized st; game_loaded := game_loaded st;
     state_buffer := state_buffer st; state_size := state_size st;
     trace := trace st |}.

Definition set_vout_offset (st : web_state) (v : Z) : web_state :=
  {| vout_buf := vout_buf st; vout_width := vout_width st;
     vout_height := vout_height st; vout_offset := v;
     vm_current_start_line := vm_current_start_line st;
     vm_current_line_count := vm_current_line_count st;
     vm_current_start_col := vm_current_start_col st;
     vm_current_col_count := vm_current_col_count st;
     snd_buffer := snd_buffer st; input_state := input_state st;
     emu_initialized := emu_initialized st; game_loaded := game_loaded st;
     state_buffer := state_buffer st; state_size := state_size st;
     trace := trace st |}.

Definition set_input_state (st : web_state) (v : list Z) : web_state :=
  {| vout_buf := vout_buf st; vout_width := vout_width st;
     vout_height := vout_height st; vout_offset := vout_offset st;
     vm_current_start_line := vm_current_start_line st;
     vm_current_line_count := vm_current_line_count st;
     vm_current_start_col := vm_current_start_col st;
     vm_current_col_count := vm_current_col_count st;
     snd_buffer := snd_buffer st; input_state := v;
     emu_initialized := emu_initialized st; game_loaded := game_loaded st;
     state_buffer := state_buffer st; state_size := state_size st;
     trace := trace st |}.

Definition set_state_buffer (st : web_state) (v : option buffer) : web_state :=
  {| vout_buf := vout_buf st; vout_width := vout_width st;
     vout_height := vout_height st; vout_offset := vout_offset st;
     vm_current_start_line := vm_current_start_line st;
     vm_current_line_count := vm_current_line_count st;
     vm_current_start_col := vm_current_start_col st;
     vm_current_col_count := vm_current_col_count st;
     snd_buffer := snd_buffer st; input_state := input_state st;
     emu_initialized := emu_initialized st; game_loaded := game_loaded st;
     state_buffer := v; state_size := state_size st;
     trace := trace st |}.

Definition set_state_size (st : web_state) (v : Z) : web_state :=
  {| vout_buf := vout_buf st; vout_width := vout_width st;
     vout_height := vout_height st; vout_offset := vout_offset st;
     vm_current_start_line := vm_current_start_line st;
     vm_current_line_count := vm_current_line_count st;
     vm_current_start_col := vm_current_start_col st;
     vm_current_col_count := vm_current_col_count st;
     snd_buffer := snd_buffer st; input_state := input_state st;
     emu_initialized := emu_initialized st; game_loaded := game_loaded st;
     state_buffer := state_buffer st; state_size := v;
     trace := trace st |}.

(** Append one effect to the log. *)
Definition emit (st : web_state) (e : event) : web_state :=
  {| vout_buf := vout_buf st; vout_width := vout_width st;
     vout_height := vout_height st; vout_offset := vout_offset st;
     vm_current_start_line := vm_current_start_line st;
     vm_current_line_count := vm_current_line_count st;
     vm_current_start_col := vm_current_start_col st;
     vm_current_col_count := vm_current_col_count st;
     snd_buffer := snd_buffer st; input_state := input_state st;
     emu_initialized := emu_initialized st; game_loaded := game_loaded st;
     state_buffer := state_buffer st; state_size := state_size st;
     trace := trace st ++ [e] |}.

(** ** Video presentation *)

(** [memset(buf, 0, nbytes)] on an array of 16-bit samples: the samples the
    byte range covers become zero, the rest stay. *)
Definition memset_zero (buf : list Z) (nbytes : Z) : list Z :=
  let n := Nat.min (Z.to_nat (nbytes / 2)) (length buf) in
  repeat 0 n ++ skipn n buf.

(** A function body without branches out of it is the sequence of its
    statements, each a change of the statics; running the body applies them
    in program order. *)
Definition statement : Type := web_state -> web_state.

Fixpoint run_statements (body : list statement) (st : web_state)
  : web_state :=
  match body with
  | [] => st
  | stmt :: rest => run_statements rest (stmt st)
  end.

(** The states a run passes through: the state on entry, then the state
    after each statement. *)
Fixpoint states_through (body : list statement) (st : web_state)
  : list web_state :=
  st :: match body with
        | [] => []
        | stmt :: rest => states_through rest (stmt st)
        end.

(** The body of
    [emu_video_mode_change(start_line, line_count, start_col, col_count)],
    statement by statement: the four stores to the cached mode, the width,
    the height, the [memset], the call of [PicoDrawSetOutBuf], the offset,
    the two sanity checks, the [EM_ASM] block and the store to
    [Pico.m.dirtyPal]. *)
Definition emu_video_mode_change_body (window : host_window)
    (start_line line_count start_col col_count : Z) : list statement :=
  [ fun st => set_vm_current st start_line line_count start_col col_count;
    fun st => set_vout_width st col_count;
    fun st => set_vout_height st line_count;
    fun st => set_vout_buf st
                (memset_zero (vout_buf st)
                   (VOUT_MAX_WIDTH * VOUT_MAX_HEIGHT * 2));
    fun st => emit st (Ev_PicoDrawSetOutBuf (to_int (vout_width st * 2)));
    fun st => set_vout_offset st
                (to_int (to_int (vout_width st * start_line) * 2));
    fun st => if vout_height st >? VOUT_MAX_HEIGHT
              then set_vout_height st VOUT_MAX_HEIGHT else st;
    fun st => if vout_offset st
                 >? to_int (to_int (vout_width st * (VOUT_MAX_HEIGHT - 1)) * 2)
              then set_vout_offset st
                     (to_int
                        (to_int (vout_width st * (VOUT_MAX_HEIGHT - 1)) * 2))
              else st;
    fun st => if has_onVideoModeChange window
              then emit st
                     (Ev_onVideoModeChange (vout_width st) (vout_height st))
              else st;
    fun st => emit st (Ev_dirtyPal 1) ].

(** [emu_video_mode_change(start_line, line_count, start_col, col_count)]. *)
Definition emu_video_mode_change (window : host_window)
    (start_line line_count start_col col_count : Z) (st : web_state)
  : web_state :=
  run_statements
    (emu_video_mode_change_body window start_line line_count start_col
       col_count) st.

(** What a mode change works on, read off a state: the cached mode, the
    visible width and height, the offset, the pixel buffer and the log of
    effects. *)
Definition video_view (st : web_state)
  : Z * Z * Z * Z * Z * Z * Z * list Z * list event :=
  (vm_current_start_line st, vm_current_line_count st,
   vm_current_start_col st, vm_current_col_count st,
   vout_width st, vout_height st, vout_offset st, vout_buf st, trace st).

(** The statics a mode change has no business with. *)
Definition beside_video (st : web_state)
  : list Z * list Z * Z * Z * option buffer * Z :=
  (snd_buffer st, input_state st, emu_initialized st, game_loaded st,
   state_buffer st, state_size st).

(** [emu_32x_startup()]. *)
Definition emu_32x_startup (window : host_window) (st : web_state)
  : web_state :=
  let st := emit st (Ev_PicoDrawSetOutFormat PDF_RGB555 0) in
  if negb (vm_current_start_line st =? -1)
     && negb (vm_current_line_count st =? -1)
     && negb (vm_current_start_col st =? -1)
     && negb (vm_current_col_count st =? -1)
  then emu_video_mode_change window
         (vm_current_start_line st) (vm_current_line_count st)
         (vm_current_start_col st) (vm_current_col_count st) st
  else emit st (Ev_PicoDrawSetOutBuf (to_int (vout_width st * 2))).

(** A pointer into one of the static buffers: the object and a byte
    displacement from its start. *)
Inductive object : Type := Obj_vout_buf | Obj_snd_buffer | Obj_state_buffer.

Record pointer : Type := { ptr_obj : object; ptr_off : Z }.

(** [pico_get_video_buffer()]: [(char * )vout_buf + vout_offset]. *)
Definition pico_get_video_buffer (st : web_state) : pointer :=
  {| ptr_obj := Obj_vout_buf; ptr_off := vout_offset st |}.

Definition pico_get_video_width (st : web_state) : Z := vout_width st.

Definition pico_get_video_height (st : web_state) : Z := vout_height st.

(** ** Audio delivery *)

(** [new Int16Array(n)]. *)
Definition Int16Array_new (n : Z) : result (list Z) :=
  if n <? 0 then Fault (JsRangeError n) else Ok (repeat 0 (Z.to_nat n)).

(** [HEAP16[i]] as the value an [Int16Array] slot takes from it: an index
    outside the heap reads [undefined], which is stored as 0. *)
Definition HEAP16_get (HEAP16 : list Z) (i : Z) : Z :=
  if (0 <=? i) && (i <? Z.of_nat (length HEAP16))
  then nth (Z.to_nat i) HEAP16 0 else 0.

(** [a[i] = v] on a typed array: a store outside the array is dropped. *)
Fixpoint typed_store (a : list Z) (i : nat) (v : Z) : list Z :=
  match a, i with
  | [], _ => []
  | _ :: t, O => v :: t
  | h :: t, S j => h :: typed_store t j v
  end.

(** The loop [for (i = ...; i < samples * 2; i++) audioData[i] = HEAP16[(ptr >> 1) + i]]
    with [todo] iterations left. *)
Fixpoint audio_copy_loop (todo : nat) (i : Z) (HEAP16 : list Z) (ptr : Z)
    (audioData : list Z) : list Z :=
  match todo with
  | O => audioData
  | S todo' =>
      audio_copy_loop todo' (i + 1) HEAP16 ptr
        (typed_store audioData (Z.to_nat i)
           (HEAP16_get HEAP16 (Z.shiftr ptr 1 + i)))
  end.

(** [snd_write(len)] in the Emscripten build.  [sndOut] is the address held
    in [PicoIn.sndOut]; [HEAP16] is the 16-bit view of the heap. *)
Definition snd_write (window : host_window) (HEAP16 : list Z) (sndOut : Z)
    (len : Z) (st : web_state) : result web_state :=
  let samples := to_int (Z.quot len 4) in
  if has_onAudioWrite window then
    audioData <- Int16Array_new (samples * 2) ;;
    let audioData :=
      audio_copy_loop (Z.to_nat (samples * 2)) 0 HEAP16 sndOut audioData in
    Ok (emit st (Ev_onAudioWrite audioData))
  else Ok st.

(** ** Input *)

(** Conversion to [unsigned short], the type of the parameter [buttons] and
    of the entries of [input_state]. *)
Definition to_ushort (z : Z) : Z := z mod 2 ^ 16.

(** [a[i] = v] on a C array of 16-bit entries: a store outside the array is
    undefined behaviour. *)
Definition array_store (a : list Z) (i : Z) (v : Z) : result (list Z) :=
  if (0 <=? i) && (i <? Z.of_nat (length a))
  then Ok (typed_store a (Z.to_nat i) v)
  else Fault (OOB_write (2 * i) 2 (2 * Z.of_nat (length a))).

(** [pico_set_input(pad, buttons)].  The argument is converted to the
    parameter's type [unsigned short] on entry. *)
Definition pico_set_input (pad buttons : Z) (st : web_state)
  : result web_state :=
  let buttons := to_ushort buttons in
  if (pad >=? 0) && (pad <? 2)
  then
    a <- array_store (input_state st) pad buttons ;;
    Ok (set_input_state st a)
  else Ok st.

(** ** Save states *)

(** [pico_state_save()].  [malloc] is the allocator's answer to a request
    ([None] is NULL).  The context's [save_buf] aliases [state_buffer], so
    what the callbacks wrote is in [state_buffer] when the serializer
    returns. *)
Definition pico_state_save (core : Z -> serializer)
    (malloc : Z -> option buffer) (st : web_state) : result (Z * web_state) :=
  if game_loaded st =? 0 then Ok (0, st)
  else
    let alloc :=
      match state_buffer st with
      | Some _ => Some st
      | None =>
          match malloc STATE_MAX_SIZE with
          | Some b => Some (set_state_buffer st (Some b))
          | None => None
          end
      end in
    match alloc with
    | None => Ok (0, st)
    | Some st =>
        let ctx := {| load_buf := None; save_buf := state_buffer st;
                      size := STATE_MAX_SIZE; pos := 0 |} in
        let st := emit st (Ev_PicoStateFP 1) in
        '(ret, ctx') <- PicoStateFP core ctx 1 None (Some state_write_cb)
                          None (Some state_seek_cb) ;;
        let st := set_state_buffer st (save_buf ctx') in
        if negb (ret =? 0) then Ok (0, st)
        else Ok (1, set_state_size st (pos ctx'))
    end.

(** [pico_get_state_buffer()]. *)
Definition pico_get_state_buffer (st : web_state) : option pointer :=
  match state_buffer st with
  | Some _ => Some {| ptr_obj := Obj_state_buffer; ptr_off := 0 |}
  | None => None
  end.

(** [pico_get_state_size()]. *)
Definition pico_get_state_size (st : web_state) : Z := to_int (state_size st).

(** [pico_get_state_load_buffer(size)]. *)
Definition pico_get_state_load_buffer (malloc : Z -> option buffer)
    (size_arg : Z) (st : web_state) : option pointer * web_state :=
  let alloc :=
    match state_buffer st with
    | Some _ => Some st
    | None =>
        match malloc STATE_MAX_SIZE with
        | Some b => Some (set_state_buffer st (Some b))
        | None => None
        end
    end in
  match alloc with
  | None => (None, st)
  | Some st =>
      let st := set_state_size st (to_size_t size_arg) in
      (Some {| ptr_obj := Obj_state_buffer; ptr_off := 0 |}, st)
  end.

(** [pico_state_load()]. *)
Definition pico_state_load (core : Z -> serializer) (st : web_state)
  : result (Z * web_state) :=
  if game_loaded st =? 0 then Ok (0, st)
  else
    match state_buffer st with
    | None => Ok (0, st)
    | Some _ =>
        if state_size st =? 0 then Ok (0, st)
        else
          let ctx := {| load_buf := state_buffer st; save_buf := None;
                        size := state_size st; pos := 0 |} in
          let st := emit st (Ev_PicoStateFP 0) in
          '(ret, _) <- PicoStateFP core ctx 0 (Some state_read_cb) None
                         (Some state_eof_cb) (Some state_seek_cb) ;;
          if negb (ret =? 0) then Ok (0, st) else Ok (1, st)
    end.

(** [pico_state_exists()]. *)
Definition pico_state_exists (st : web_state) : Z :=
  match state_buffer st with
  | Some _ => if state_size st >? 0 then 1 else 0
  | None => 0
  end.

(** ** Sequences of stream operations *)

Inductive stream_op : Type :=
| OpRead (p : buffer) (esize nmemb : Z)
| OpWrite (p : buffer) (esize nmemb : Z)
| OpSkip (esize nmemb : Z)
| OpEof
| OpSeek (offset whence : Z).

Definition apply_op (o : stream_op) (ctx : state_context)
  : result state_context :=
  match o with
  | OpRead p esize nmemb =>
      '(_, _, c) <- state_read_cb p esize nmemb ctx ;; Ok c
  | OpWrite p esize nmemb =>
      '(_, c) <- state_write_cb p esize nmemb ctx ;; Ok c
  | OpSkip esize nmemb => Ok (snd (state_skip_cb esize nmemb ctx))
  | OpEof => Ok ctx
  | OpSeek offset whence => Ok (snd (state_seek_cb offset whence ctx))
  end.

(** Every context the stream goes through while [ops] are applied in order,
    the starting one included; a fault ends the sequence. *)
Fixpoint visited (ops : list stream_op) (ctx : state_context)
  : list state_context :=
  ctx :: match ops with
         | [] => []
         | o :: ops' =>
             match apply_op o ctx with
             | Ok c => visited ops' c
             | Fault _ => []
             end
         end.

(** Operations that transfer or test, as opposed to repositioning. *)
Definition is_transfer (o : stream_op) : bool :=
  match o with
  | OpRead _ _ _ | OpWrite _ _ _ | OpEof => true
  | OpSkip _ _ | OpSeek _ _ => false
  end.

(** The cursor lies inside the stream. *)
Definition cursor_in_capacity (ctx : state_context) : Prop :=
  0 <= pos ctx <= size ctx.

(** The cursor is a [size_t] value. *)
Definition cursor_in_word (ctx : state_context) : Prop :=
  0 <= pos ctx < SIZE_MOD.

(** Position of the first event of a kind in a log. *)
Fixpoint first_index (f : event -> bool) (l : list event) : option nat :=
  match l with
  | [] => None
  | e :: l' =>
      if f e then Some O
      else match first_index f l' with
           | Some n => Some (S n)
           | None => None
           end
  end.

Definition is_dirtyPal (e : event) : bool :=
  match e with Ev_dirtyPal _ => true | _ => false end.

Definition is_onVideoModeChange (e : event) : bool :=
  match e with Ev_onVideoModeChange _ _ => true | _ => false end.


(** [x] occurs in the log, and no [y] occurs before it. *)
Definition happens_before (x y : event -> bool) (l : list event) : Prop :=
  match first_index x l, first_index y l with
  | Some i, Some j => (i < j)%nat
  | Some _, None => True
  | None, _ => False
  end.

(** The invariant that transfers keep: the cursor is inside a stream whose
    capacity is a [size_t] value. *)
Definition stream_ok (ctx : state_context) : Prop :=
  cursor_in_capacity ctx /\ size ctx < SIZE_MOD.

(** ** Sample inputs *)

Definition sample_bytes : buffer :=
  [x10; x11; x12; x13; x14; x15; x16; x17;
   x18; x19; x1a; x1b; x1c; x1d; x1e; x1f].

(** A 16-byte stream at its start. *)
Definition sample_stream : state_context :=
  {| load_buf := Some sample_bytes; save_buf := Some sample_bytes;
     size := 16; pos := 0 |}.

Definition page_with_handlers : host_window :=
  {| has_onVideoModeChange := true; has_onAudioWrite := true |}.


(** The statics once [pico_init] and [pico_load_rom] have succeeded and a
    state buffer of [n] bytes is in place. *)
Definition running_state (n : nat) : web_state :=
  {| vout_buf := vout_buf initial_state;
     vout_width := VOUT_MAX_WIDTH;
     vout_height := VOUT_MAX_HEIGHT;
     vout_offset := 0;
     vm_current_start_line := -1;
     vm_current_line_count := -1;
     vm_current_start_col := -1;
     vm_current_col_count := -1;
     snd_buffer := snd_buffer initial_state;
     input_state := [0; 0];
     emu_initialized := 1;
     game_loaded := 1;
     state_buffer := Some (repeat x00 n);
     state_size := 0;
     trace := [] |}.

(** A save program that writes six bytes and reports whether all went out. *)
Definition sample_save (is_save : Z) : serializer :=
  CallWrite [x01; x02; x03; x04; x05; x06] 1 6
    (fun r => Return (if r =? 6 then 0 else 1)).

(** A save program that writes eight bytes and reports whether all went
    out. *)
Definition earlier_save (is_save : Z) : serializer :=
  CallWrite [xa1; xa2; xa3; xa4; xa5; xa6; xa7; xa8] 1 8
    (fun r => Return (if r =? 8 then 0 else 1)).

(** A save program that writes, then gives up with status [-1]. *)
Definition failing_save (is_save : Z) : serializer :=
  CallWrite [x01; x02; x03; x04; x05; x06] 1 6 (fun _ => Return (-1)).

(** An allocator that always succeeds. *)
Definition sample_malloc (n : Z) : option buffer :=
  Some (repeat x00 (Z.to_nat n)).

(** A 16-bit heap view holding 0, 1, 2, ... *)
Definition sample_heap : list Z := map Z.of_nat (seq 0 128).

(** ** ROM name, buttons, region *)

(** [a[i]] and [a[i] = v] on a [char] array: outside the array the access is
    undefined. *)
Definition load_char (a : buffer) (i : Z) : result byte :=
  if (0 <=? i) && (i <? blen a) then Ok (nth (Z.to_nat i) a x00)
  else Fault (OOB_read i 1 (blen a)).

Definition store_char (a : buffer) (i : Z) (v : byte) : result buffer :=
  if (0 <=? i) && (i <? blen a)
  then Ok (firstn (Z.to_nat i) a ++ v :: skipn (S (Z.to_nat i)) a)
  else Fault (OOB_write i 1 (blen a)).

(** The string a [char *] denotes: the bytes before the first NUL. *)
Fixpoint c_string (a : buffer) : buffer :=
  match a with
  | [] => []
  | c :: a' => if Byte.eqb c x00 then [] else c :: c_string a'
  end.

Definition SPACE : byte := x20.

(** The loop [for (i = 47; i >= 0 && name[i] == ' '; i--) name[i] = '\0'],
    entered at index [i] with [fuel] iterations allowed. *)
Fixpoint trim_loop (fuel : nat) (i : Z) (name : buffer) : result buffer :=
  match fuel with
  | O => Ok name
  | S fuel' =>
      if i >=? 0 then
        c <- load_char name i ;;
        if Byte.eqb c SPACE then
          name' <- store_char name i x00 ;;
          trim_loop fuel' (i - 1) name'
        else Ok name
      else Ok name
  end.

(** [pico_get_rom_name()].  [media_id_header] is the core's header copy and
    [name] the function's static array as the previous call left it; the
    result is the array the returned pointer refers to. *)
Definition pico_get_rom_name (media_id_header name : buffer) (st : web_state)
  : result buffer :=
  if game_loaded st =? 0 then Ok [x00]
  else
    name <- memcpy name 0 media_id_header 32 48 ;;
    name <- store_char name 48 x00 ;;
    trim_loop 49 47 name.

(** The button masks handed to JavaScript. *)
Definition pico_get_button_up : Z := to_int (Z.shiftl 1 0).
Definition pico_get_button_down : Z := to_int (Z.shiftl 1 1).
Definition pico_get_button_left : Z := to_int (Z.shiftl 1 2).
Definition pico_get_button_right : Z := to_int (Z.shiftl 1 3).
Definition pico_get_button_b : Z := to_int (Z.shiftl 1 4).
Definition pico_get_button_c : Z := to_int (Z.shiftl 1 5).
Definition pico_get_button_a : Z := to_int (Z.shiftl 1 6).
Definition pico_get_button_start : Z := to_int (Z.shiftl 1 7).
Definition pico_get_button_z : Z := to_int (Z.shiftl 1 8).
Definition pico_get_button_y : Z := to_int (Z.shiftl 1 9).
Definition pico_get_button_x : Z := to_int (Z.shiftl 1 10).
Definition pico_get_button_mode : Z := to_int (Z.shiftl 1 11).

(** The twelve masks, lowest bit first. *)
Definition button_masks : list Z :=
  [pico_get_button_up; pico_get_button_down; pico_get_button_left;
   pico_get_button_right; pico_get_button_b; pico_get_button_c;
   pico_get_button_a; pico_get_button_start; pico_get_button_z;
   pico_get_button_y; pico_get_button_x; pico_get_button_mode].

(** The bitmask a page builds for a set of held buttons: the OR of their
    masks. *)
Fixpoint held_mask (held : list bool) (masks : list Z) : Z :=
  match held, masks with
  | h :: held', m :: masks' =>
      Z.lor (if h then m else 0) (held_mask held' masks')
  | _, _ => 0
  end.

(** [pico_get_region()]; [hardware] is the core's [Pico.m.hardware] byte. *)
Definition pico_get_region (hardware : Z) : Z := to_int (Z.land hardware 192).

(** The extension test of [pico_load_rom]: [len = strlen(filename)],
    [ext = filename + len - 4], and the four character comparisons.
    [filename] holds the characters before the terminating NUL. *)
Definition has_32x_extension (filename : buffer) : bool :=
  let len := to_int (blen filename) in
  if len >=? 4 then
    let ext (j : Z) := nth (Z.to_nat (len - 4 + j)) filename x00 in
    (Byte.eqb (ext 0) x2e || Byte.eqb (ext 0) x2e)
    && Byte.eqb (ext 1) x33
    && Byte.eqb (ext 2) x32
    && (Byte.eqb (ext 3) x78 || Byte.eqb (ext 3) x58)
  else false.

(** ** The lifecycle entry points and the core they drive

    The remaining entry points call into the core and store to its
    configuration.  Those calls and stores are logged in program order in
    [core_log].  While a call runs, the core can reach the statics of web.c
    only through what web.c gave it: the callbacks [emu_video_mode_change],
    [emu_32x_startup] and [snd_write], the pixel buffer passed to
    [PicoDrawSetOutBuf] and the sample buffer stored in [PicoIn.sndOut].
    What the core does with them during the call logged at position [n] is
    the list [react n] of a [core_model]; values the code reads back from the
    core are fields of the model as well. *)

Inductive popt_flag : Type :=
| POPT_EN_STEREO | POPT_EN_FM | POPT_EN_PSG | POPT_EN_Z80
| POPT_EN_MCD_PCM | POPT_EN_MCD_CDDA | POPT_EN_MCD_GFX
| POPT_ACC_SPRITES | POPT_EN_32X | POPT_EN_PWM | POPT_DIS_32C_BORDER
| POPT_ALT_RENDERER | POPT_EN_SOFTSCALE.

Inductive input_device : Type := PICO_INPUT_PAD_6BTN.

Inductive core_call : Type :=
| Core_PicoInit
| Core_PicoExit
| Core_PicoCartUnload
| Core_PicoLoadMedia (filename rom : buffer) (romsize : Z)
| Core_PicoLoopPrepare
| Core_PsndRerate (preserve_state : Z)
| Core_PicoDrawSetOutFormat (fmt : pixel_format) (use_32x_line_mode : Z)
| Core_PicoDrawSetOutBuf (pitch : Z)
| Core_PicoSetInputDevice (port : Z) (device : input_device)
| Core_PicoReset
| Core_PicoFrame
| Core_PicoDetectRegion
| Core_Pico32xStartup
| Core_p32x_reset_sh2s
| Core_opt_assign (flags : list popt_flag)
| Core_opt_clear (flags : list popt_flag)
| Core_opt_set (flags : list popt_flag)
| Core_regionOverride (v : Z)
| Core_autoRgnOrder (v : Z)
| Core_sndRate (v : Z)
| Core_sndOut_snd_buffer
| Core_writeSound_snd_write
| Core_pad (port : Z) (v : Z).

Inductive reaction : Type :=
| R_video_mode_change (start_line line_count start_col col_count : Z)
| R_32x_startup
| R_snd_write (HEAP16 : list Z) (sndOut len : Z)
| R_draw (i : nat) (pixel : Z)
| R_sample (i : nat) (sample : Z).

Record core_model : Type := {
  react : nat -> list reaction;
  media_type : nat -> Z;
  wants_32x : nat -> bool
}.

Definition set_snd_buffer (st : web_state) (v : list Z) : web_state :=
  {| vout_buf := vout_buf st; vout_width := vout_width st;
     vout_height := vout_height st; vout_offset := vout_offset st;
     vm_current_start_line := vm_current_start_line st;
     vm_current_line_count := vm_current_line_count st;
     vm_current_start_col := vm_current_start_col st;
     vm_current_col_count := vm_current_col_count st;
     snd_buffer := v; input_state := input_state st;
     emu_initialized := emu_initialized st; game_loaded := game_loaded st;
     state_buffer := state_buffer st; state_size := state_size st;
     trace := trace st |}.

Definition set_emu_initialized (st : web_state) (v : Z) : web_state :=
  {| vout_buf := vout_buf st; vout_width := vout_width st;
     vout_height := vout_height st; vout_offset := vout_offset st;
     vm_current_start_line := vm_current_start_line st;
     vm_current_line_count := vm_current_line_count st;
     vm_current_start_col := vm_current_start_col st;
     vm_current_col_count := vm_current_col_count st;
     snd_buffer := snd_buffer st; input_state := input_state st;
     emu_initialized := v; game_loaded := game_loaded st;
     state_buffer := state_buffer st; state_size := state_size st;
     trace := trace st |}.

Definition set_game_loaded (st : web_state) (v : Z) : web_state :=
  {| vout_buf := vout_buf st; vout_width := vout_width st;
     vout_height := vout_height st; vout_offset := vout_offset st;
     vm_current_start_line := vm_current_start_line st;
     vm_current_line_count := vm_current_line_count st;
     vm_current_start_col := vm_current_start_col st;
     vm_current_col_count := vm_current_col_count st;
     snd_buffer := snd_buffer st; input_state := input_state st;
     emu_initialized := emu_initialized st; game_loaded := v;
     state_buffer := state_buffer st; state_size := state_size st;
     trace := trace st |}.

(** A store by the core through a pointer to an array of 16-bit values. *)
Definition core_store16 (a : list Z) (i : nat) (v : Z) : result (list Z) :=
  if (i <? length a)%nat then Ok (typed_store a i v)
  else Fault (OOB_write (2 * Z.of_nat i) 2 (2 * Z.of_nat (length a))).

Definition run_reaction (window : host_window) (r : reaction)
    (st : web_state) : result web_state :=
  match r with
  | R_video_mode_change start_line line_count start_col col_count =>
      Ok (emu_video_mode_change window start_line line_count start_col
            col_count st)
  | R_32x_startup => Ok (emu_32x_startup window st)
  | R_snd_write HEAP16 sndOut len => snd_write window HEAP16 sndOut len st
  | R_draw i pixel =>
      b <- core_store16 (vout_buf st) i pixel ;; Ok (set_vout_buf st b)
  | R_sample i sample =>
      b <- core_store16 (snd_buffer st) i sample ;; Ok (set_snd_buffer st b)
  end.

Fixpoint run_reactions (window : host_window) (rs : list reaction)
    (st : web_state) : result web_state :=
  match rs with
  | [] => Ok st
  | r :: rs' =>
      st' <- run_reaction window r st ;; run_reactions window rs' st'
  end.

(** The statics of web.c that the lifecycle entry points use, around the
    ones modelled so far. *)
Record session : Type := {
  web : web_state;
  rom_data : option buffer;
  rom_size : Z;
  frame_count : Z;
  core_log : list core_call
}.

Definition initial_session : session :=
  {| web := initial_state; rom_data := None; rom_size := 0;
     frame_count := 0; core_log := [] |}.

Definition set_web (s : session) (w : web_state) : session :=
  {| web := w; rom_data := rom_data s; rom_size := rom_size s;
     frame_count := frame_count s; core_log := core_log s |}.

Definition set_rom (s : session) (d : option buffer) (n : Z) : session :=
  {| web := web s; rom_data := d; rom_size := n;
     frame_count := frame_count s; core_log := core_log s |}.

Definition set_frame_count (s : session) (v : Z) : session :=
  {| web := web s; rom_data := rom_data s; rom_size := rom_size s;
     frame_count := v; core_log := core_log s |}.

(** A store to the core's configuration. *)
Definition core_store (c : core_call) (s : session) : session :=
  {| web := web s; rom_data := rom_data s; rom_size := rom_size s;
     frame_count := frame_count s; core_log := core_log s ++ [c] |}.

(** A call into the core, with what the core does to web.c meanwhile. *)
Definition core_invoke (window : host_window) (cm : core_model)
    (c : core_call) (s : session) : result session :=
  let n := length (core_log s) in
  let s := core_store c s in
  w <- run_reactions window (react cm n) (web s) ;;
  Ok (set_web s w).

(** [pico_init()]. *)
Definition pico_init (window : host_window) (cm : core_model) (s : session)
  : result (Z * session) :=
  if negb (emu_initialized (web s) =? 0) then Ok (1, s)
  else
    s <- core_invoke window cm Core_PicoInit s ;;
    let s := core_store
               (Core_opt_assign
                  [POPT_EN_STEREO; POPT_EN_FM; POPT_EN_PSG; POPT_EN_Z80;
                   POPT_EN_MCD_PCM; POPT_EN_MCD_CDDA; POPT_EN_MCD_GFX;
                   POPT_ACC_SPRITES; POPT_EN_32X; POPT_EN_PWM;
                   POPT_DIS_32C_BORDER]) s in
    let s := core_store (Core_regionOverride 0) s in
    let s := core_store (Core_autoRgnOrder 388) s in
    let s := core_store (Core_sndRate SND_RATE) s in
    let s := core_store Core_sndOut_snd_buffer s in
    let s := core_store Core_writeSound_snd_write s in
    s <- core_invoke window cm (Core_PicoDrawSetOutFormat PDF_RGB555 0) s ;;
    s <- core_invoke window cm
           (Core_PicoDrawSetOutBuf (to_int (vout_width (web s) * 2))) s ;;
    s <- core_invoke window cm
           (Core_PicoSetInputDevice 0 PICO_INPUT_PAD_6BTN) s ;;
    s <- core_invoke window cm
           (Core_PicoSetInputDevice 1 PICO_INPUT_PAD_6BTN) s ;;
    Ok (1, set_web s (set_emu_initialized (web s) 1)).

(** [pico_exit()]. *)
Definition pico_exit (window : host_window) (cm : core_model) (s : session)
  : result session :=
  if emu_initialized (web s) =? 0 then Ok s
  else
    let s := match rom_data s with
             | Some _ => set_rom s None 0
             | None => s
             end in
    s <- core_invoke window cm Core_PicoExit s ;;
    let s := set_web s (set_emu_initialized (web s) 0) in
    Ok (set_web s (set_game_loaded (web s) 0)).

(** [pico_get_rom_buffer(size)]: the old buffer is freed, the new one is
    whatever [malloc] answers, and [rom_size] is set in either case.  The
    argument is converted to the parameter's type [unsigned int], which is
    as wide as [size_t] here. *)
Definition pico_get_rom_buffer (malloc : Z -> option buffer) (size_arg : Z)
    (s : session) : option buffer * session :=
  let size_arg := to_size_t size_arg in
  let d := malloc size_arg in
  (d, set_rom s d size_arg).

(** [pico_load_rom(filename)], from the call of [PicoLoadMedia] on. *)
Definition pico_load_rom_media (window : host_window) (cm : core_model)
    (filename rom : buffer) (s : session) : result (Z * session) :=
  let n := length (core_log s) in
  s <- core_invoke window cm
         (Core_PicoLoadMedia filename rom (rom_size s)) s ;;
  if media_type cm n <=? 0 then Ok (0, s)
  else
    s <- core_invoke window cm Core_PicoLoopPrepare s ;;
    let s := set_web s
               (set_snd_buffer (web s)
                  (memset_zero (snd_buffer (web s))
                     (SND_MAX_SAMPLES * 2 * 2))) in
    s <- core_invoke window cm (Core_PsndRerate 0) s ;;
    let s := core_store
               (Core_opt_clear [POPT_ALT_RENDERER; POPT_EN_SOFTSCALE]) s in
    let s := core_store (Core_opt_set [POPT_DIS_32C_BORDER]) s in
    s <- core_invoke window cm (Core_PicoDrawSetOutFormat PDF_RGB555 0) s ;;
    s <- core_invoke window cm
           (Core_PicoDrawSetOutBuf (to_int (vout_width (web s) * 2))) s ;;
    let s := set_web s (set_game_loaded (web s) 1) in
    s <- (if wants_32x cm (length (core_log s)) then
            if has_32x_extension filename then
              s <- core_invoke window cm Core_Pico32xStartup s ;;
              core_invoke window cm Core_p32x_reset_sh2s s
            else Ok s
          else Ok s) ;;
    Ok (1, s).

(** [pico_load_rom(filename)]: the guards and the unloading of the previous
    game, then the part above. *)
Definition pico_load_rom (window : host_window) (cm : core_model)
    (filename : buffer) (s : session) : result (Z * session) :=
  if emu_initialized (web s) =? 0 then Ok (0, s)
  else
    match rom_data s with
    | None => Ok (0, s)
    | Some rom =>
        if rom_size s =? 0 then Ok (0, s)
        else
          s <- (if negb (game_loaded (web s) =? 0) then
                  s <- core_invoke window cm Core_PicoCartUnload s ;;
                  Ok (set_web s (set_game_loaded (web s) 0))
                else Ok s) ;;
          pico_load_rom_media window cm filename rom s
    end.

(** [pico_reset()]. *)
Definition pico_reset (window : host_window) (cm : core_model) (s : session)
  : result session :=
  if negb (game_loaded (web s) =? 0)
  then core_invoke window cm Core_PicoReset s
  else Ok s.

(** [pico_run_frame()]. *)
Definition pico_run_frame (window : host_window) (cm : core_model)
    (s : session) : result session :=
  if game_loaded (web s) =? 0 then Ok s
  else
    let s := core_store (Core_pad 0 (nth 0 (input_state (web s)) 0)) s in
    let s := core_store (Core_pad 1 (nth 1 (input_state (web s)) 0)) s in
    s <- core_invoke window cm Core_PicoFrame s ;;
    Ok (set_frame_count s (to_int (frame_count s + 1))).

(** [pico_set_region(region)]. *)
Definition pico_set_region (window : host_window) (cm : core_model)
    (region : Z) (s : session) : result session :=
  let s := core_store (Core_regionOverride region) s in
  if negb (game_loaded (web s) =? 0) then
    s <- core_invoke window cm Core_PicoDetectRegion s ;;
    s <- core_invoke window cm Core_PicoLoopPrepare s ;;
    core_invoke window cm (Core_PsndRerate 0) s
  else Ok s.

(** ** Sequences of entry-point calls *)

Inductive api_call : Type :=
| Api_init
| Api_exit
| Api_get_rom_buffer (size_arg : Z)
| Api_load_rom (filename : buffer)
| Api_reset
| Api_set_input (pad buttons : Z)
| Api_run_frame
| Api_set_region (region : Z)
| Api_state_save (prog : Z -> serializer)
| Api_get_state_load_buffer (size_arg : Z)
| Api_state_load (prog : Z -> serializer).

Definition api_step (window : host_window) (cm : core_model)
    (malloc : Z -> option buffer) (c : api_call) (s : session)
  : result session :=
  match c with
  | Api_init => '(_, s') <- pico_init window cm s ;; Ok s'
  | Api_exit => pico_exit window cm s
  | Api_get_rom_buffer n => Ok (snd (pico_get_rom_buffer malloc n s))
  | Api_load_rom filename =>
      '(_, s') <- pico_load_rom window cm filename s ;; Ok s'
  | Api_reset => pico_reset window cm s
  | Api_set_input pad buttons =>
      w <- pico_set_input pad buttons (web s) ;; Ok (set_web s w)
  | Api_run_frame => pico_run_frame window cm s
  | Api_set_region region => pico_set_region window cm region s
  | Api_state_save prog =>
      '(_, w) <- pico_state_save prog malloc (web s) ;; Ok (set_web s w)
  | Api_get_state_load_buffer n =>
      Ok (set_web s (snd (pico_get_state_load_buffer malloc n (web s))))
  | Api_state_load prog =>
      '(_, w) <- pico_state_load prog (web s) ;; Ok (set_web s w)
  end.

Fixpoint api_run (window : host_window) (cm : core_model)
    (malloc : Z -> option buffer) (calls : list api_call) (s : session)
  : result session :=
  match calls with
  | [] => Ok s
  | c :: calls' =>
      s' <- api_step window cm malloc c s ;;
      api_run window cm malloc calls' s'
  end.

(** What the statics satisfy in every reachable session: the flags are 0
    or 1, a game is loaded only in an initialised emulator, the static
    arrays have their declared sizes and the state buffer, once allocated,
    has STATE_MAX_SIZE bytes. *)
Definition statics_ok (st : web_state) : Prop :=
  (emu_initialized st = 0 \/ emu_initialized st = 1) /\
  (game_loaded st = 0 \/ game_loaded st = 1) /\
  (game_loaded st = 1 -> emu_initialized st = 1) /\
  length (vout_buf st) = Z.to_nat (VOUT_MAX_WIDTH * VOUT_MAX_HEIGHT) /\
  length (snd_buffer st) = Z.to_nat (SND_MAX_SAMPLES * 2) /\
  length (input_state st) = 2%nat /\
  (forall b, state_buffer st = Some b -> blen b = STATE_MAX_SIZE).

Definition session_ok (s : session) : Prop := statics_ok (web s).

(** An allocator that hands out blocks of the size asked for. *)
Definition malloc_exact (malloc : Z -> option buffer) : Prop :=
  forall n b, malloc n = Some b -> blen b = n.

(** Serializer programs that only write and return. *)
Inductive only_writes : serializer -> Prop :=
| only_writes_return (status : Z) : only_writes (Return status)
| only_writes_write (p : buffer) (esize nmemb : Z) (k : Z -> serializer) :
    (forall r, only_writes (k r)) ->
    only_writes (CallWrite p esize nmemb k).

(** The 16-bit heap view has [buf] at address [sndOut]. *)
Definition heap_holds (HEAP16 : list Z) (sndOut : Z) (buf : list Z) : Prop :=
  forall i, (i < length buf)%nat ->
    HEAP16_get HEAP16 (Z.shiftr sndOut 1 + Z.of_nat i) = nth i buf 0.

(** Statics with a 12-sample buffer that the core has filled. *)
Definition sample_audio_state : web_state :=
  set_snd_buffer initial_state [10; -10; 20; -20; 30; -30; 40; -40; 0; 0; 0; 0].

(** What no call into the core can change in the statics: the input state,
    the lifecycle flags, the save-state statics and the sizes of the pixel
    and sample buffers. *)
Definition core_cannot_touch (st st' : web_state) : Prop :=
  input_state st' = input_state st /\
  emu_initialized st' = emu_initialized st /\
  game_loaded st' = game_loaded st /\
  state_buffer st' = state_buffer st /\
  state_size st' = state_size st /\
  length (vout_buf st') = length (vout_buf st) /\
  length (snd_buffer st') = length (snd_buffer st).

(** A core that accepts every ROM and leaves web.c alone. *)
Definition quiet_core : core_model :=
  {| react := fun _ => []; media_type := fun _ => 1;
     wants_32x := fun _ => false |}.

(** A core that rejects every ROM. *)
Definition rejecting_core : core_model :=
  {| react := fun _ => []; media_type := fun _ => 0;
     wants_32x := fun _ => false |}.

(** An allocator for blocks of up to 4096 bytes. *)
Definition small_malloc (n : Z) : option buffer :=
  if (0 <=? n) && (n <=? 4096) then Some (repeat x00 (Z.to_nat n)) else None.

(** The file name "game.32X". *)
Definition sample_filename : buffer :=
  [x67; x61; x6d; x65; x2e; x33; x32; x58].

(** A session with the emulator initialised, a 16-byte ROM buffer and a
    game loaded, with button masks 129 and 64 held on the two pads. *)
Definition playing_session : session :=
  {| web := set_input_state
              (set_game_loaded (set_emu_initialized initial_state 1) 1)
              [129; 64];
     rom_data := Some (repeat x00 16);
     rom_size := 16;
     frame_count := 41;
     core_log := [] |}.

(** The session that initialising, fetching a 1 KiB ROM buffer, pressing
    two buttons on pad 0, loading the ROM and running one frame lead to
    when the core is [quiet_core]. *)
Definition played_session : session :=
  {| web :=
       set_game_loaded
         (set_snd_buffer
            (set_input_state (set_emu_initialized initial_state 1) [129; 0])
            (memset_zero
               (snd_buffer
                  (set_input_state (set_emu_initialized initial_state 1)
                     [129; 0]))
               (SND_MAX_SAMPLES * 2 * 2)))
         1;
     rom_data := Some (repeat x00 1024);
     rom_size := 1024;
     frame_count := 1;
     core_log :=
       [Core_PicoInit;
        Core_opt_assign
          [POPT_EN_STEREO; POPT_EN_FM; POPT_EN_PSG; POPT_EN_Z80;
           POPT_EN_MCD_PCM; POPT_EN_MCD_CDDA; POPT_EN_MCD_GFX;
           POPT_ACC_SPRITES; POPT_EN_32X; POPT_EN_PWM; POPT_DIS_32C_BORDER];
        Core_regionOverride 0; Core_autoRgnOrder 388; Core_sndRate 44100;
        Core_sndOut_snd_buffer; Core_writeSound_snd_write;
        Core_PicoDrawSetOutFormat PDF_RGB555 0; Core_PicoDrawSetOutBuf 640;
        Core_PicoSetInputDevice 0 PICO_INPUT_PAD_6BTN;
        Core_PicoSetInputDevice 1 PICO_INPUT_PAD_6BTN;
        Core_PicoLoadMedia sample_filename (repeat x00 1024) 1024;
        Core_PicoLoopPrepare; Core_PsndRerate 0;
        Core_opt_clear [POPT_ALT_RENDERER; POPT_EN_SOFTSCALE];
        Core_opt_set [POPT_DIS_32C_BORDER];
        Core_PicoDrawSetOutFormat PDF_RGB555 0; Core_PicoDrawSetOutBuf 640;
        Core_pad 0 129; Core_pad 1 0; Core_PicoFrame] |}.

(** Every choice of held and released for [n] buttons. *)
Fixpoint all_held (n : nat) : list (list bool) :=
  match n with
  | O => [[]]
  | S n' => map (cons true) (all_held n') ++ map (cons false) (all_held n')
  end.

(** The decoding property of one choice, as a check. *)
Definition decodes (held : list bool) : bool :=
  (0 <=? held_mask held button_masks)
  && (held_mask held button_masks <? 4096)
  && forallb
       (fun i =>
          (nth i button_masks 0 =? 2 ^ Z.of_nat i)
          && (Z.land (held_mask held button_masks) (nth i button_masks 0)
              =? (if nth i held false then nth i button_masks 0 else 0)))
       (seq 0 12).

(** A cartridge header whose title field reads "SONIC" and 43 spaces. *)
Definition sample_header : buffer :=
  repeat x00 32 ++ [x53; x4f; x4e; x49; x43] ++ repeat x20 43
  ++ repeat x00 176.

(** * Properties *)

(** ** Proof automation *)

(** Reduce field reads of updated states, leaving constants folded. *)
Ltac web_simpl :=
  cbn [vout_buf vout_width vout_height vout_offset
       vm_current_start_line vm_current_line_count
       vm_current_start_col vm_current_col_count
       snd_buffer input_state emu_initialized game_loaded
       state_buffer state_size trace
       set_vm_current set_vout_buf set_vout_width set_vout_height
       set_vout_offset set_input_state set_state_buffer set_state_size
       emit] in *.

(** Case split on every conditional of the goal. *)
Ltac split_ifs :=
  repeat match goal with
         | |- context [if ?c then _ else _] =>
             let E := fresh "E" in destruct c eqn:E; web_simpl
         end.

(** ** Machine integer facts *)

Lemma SIZE_MOD_pos : 0 < SIZE_MOD.
Proof. reflexivity. Qed.

Lemma to_size_t_range (z : Z) : 0 <= to_size_t z < SIZE_MOD.
Proof. unfold to_size_t. apply Z.mod_pos_bound, SIZE_MOD_pos. Qed.

Lemma to_size_t_small (z : Z) : 0 <= z < SIZE_MOD -> to_size_t z = z.
Proof. intros H. unfold to_size_t. now apply Z.mod_small. Qed.

Lemma to_size_t_add_r (a b : Z) : to_size_t (a + to_size_t b) = to_size_t (a + b).
Proof. unfold to_size_t. apply Zplus_mod_idemp_r. Qed.

Lemma to_int_small (z : Z) : - 2 ^ 31 <= z <= INT_MAX -> to_int z = z.
Proof.
  unfold to_int, INT_MAX, SIZE_MOD. intros H.
  rewrite Z.mod_small; lia.
Qed.

Lemma to_int_range (z : Z) : - 2 ^ 31 <= to_int z <= INT_MAX.
Proof.
  unfold to_int, INT_MAX.
  pose proof (Z.mod_pos_bound (z + 2 ^ 31) SIZE_MOD SIZE_MOD_pos) as H.
  unfold SIZE_MOD in *. lia.
Qed.

(** A [size_t] in the upper half of the range is negative as an [int]. *)
Lemma to_int_high (z : Z) : 2 ^ 31 <= z < SIZE_MOD -> to_int z = z - SIZE_MOD.
Proof.
  unfold to_int, SIZE_MOD. intros H.
  replace (z + 2 ^ 31) with ((z - 2 ^ 31) + 1 * 2 ^ 32) by lia.
  rewrite Z.mod_add by lia. rewrite Z.mod_small; lia.
Qed.

(** ** List splicing facts *)

Lemma blen_nonneg (b : buffer) : 0 <= blen b.
Proof. unfold blen. lia. Qed.

Lemma in_bounds_true (off n : Z) (b : buffer) :
  0 <= off -> 0 <= n -> off + n <= blen b -> in_bounds off n b = true.
Proof.
  intros H1 H2 H3. unfold in_bounds.
  rewrite !andb_true_iff, !Z.leb_le. auto.
Qed.

Lemma memcpy_ok (dst : buffer) (doff : Z) (src : buffer) (soff n : Z) :
  0 <= doff -> 0 <= soff -> 0 <= n ->
  doff + n <= blen dst -> soff + n <= blen src ->
  memcpy dst doff src soff n =
  Ok (firstn (Z.to_nat doff) dst
      ++ firstn (Z.to_nat n) (skipn (Z.to_nat soff) src)
      ++ skipn (Z.to_nat (doff + n)) dst).
Proof.
  intros Hd Hs Hn Hdl Hsl. unfold memcpy.
  rewrite !in_bounds_true by assumption. reflexivity.
Qed.

Lemma set_pos_same (ctx : state_context) : set_pos ctx (pos ctx) = ctx.
Proof. destruct ctx; reflexivity. Qed.

(** ** The stream cursor *)

Lemma state_read_cb_pos (p : buffer) (esize nmemb : Z) (ctx : state_context)
    (r : Z) (p' : buffer) (ctx' : state_context) :
  state_read_cb p esize nmemb ctx = Ok (r, p', ctx') ->
  size ctx' = size ctx /\
  (pos ctx' = pos ctx \/
   pos ctx' = to_size_t (size ctx) \/
   (pos ctx' = to_size_t (pos ctx + to_size_t (esize * nmemb)) /\
    pos ctx' <= size ctx)).
Proof.
  unfold state_read_cb.
  destruct (Z.gtb_spec (to_size_t (pos ctx + to_size_t (esize * nmemb)))
              (size ctx)) as [Hgt | Hle].
  - destruct (to_int (to_size_t (size ctx - pos ctx)) <=? 0).
    + intros H; inversion H; subst. auto.
    + unfold bind. destruct (deref (load_buf ctx)); [| discriminate].
      destruct (memcpy _ _ _ _ _); [| discriminate].
      intros H; inversion H; subst; simpl. split; [reflexivity |].
      right; left. rewrite to_size_t_add_r. f_equal. lia.
  - unfold bind. destruct (deref (load_buf ctx)); [| discriminate].
    destruct (memcpy _ _ _ _ _); [| discriminate].
    intros H; inversion H; subst; simpl. auto.
Qed.

Lemma state_write_cb_pos (p : buffer) (esize nmemb : Z) (ctx : state_context)
    (r : Z) (ctx' : state_context) :
  state_write_cb p esize nmemb ctx = Ok (r, ctx') ->
  size ctx' = size ctx /\
  (pos ctx' = pos ctx \/
   pos ctx' = to_size_t (size ctx) \/
   (pos ctx' = to_size_t (pos ctx + to_size_t (esize * nmemb)) /\
    pos ctx' <= size ctx)).
Proof.
  unfold state_write_cb.
  destruct (Z.gtb_spec (to_size_t (pos ctx + to_size_t (esize * nmemb)))
              (size ctx)) as [Hgt | Hle].
  - destruct (to_int (to_size_t (size ctx - pos ctx)) <=? 0).
    + intros H; inversion H; subst. auto.
    + unfold bind. destruct (deref (save_buf ctx)); [| discriminate].
      destruct (memcpy _ _ _ _ _); [| discriminate].
      intros H; inversion H; subst; simpl. split; [reflexivity |].
      right; left. rewrite to_size_t_add_r. f_equal. lia.
  - unfold bind. destruct (deref (save_buf ctx)); [| discriminate].
    destruct (memcpy _ _ _ _ _); [| discriminate].
    intros H; inversion H; subst; simpl. auto.
Qed.

Lemma transfer_keeps_stream_ok (o : stream_op) (ctx ctx' : state_context) :
  is_transfer o = true -> stream_ok ctx -> apply_op o ctx = Ok ctx' ->
  stream_ok ctx'.
Proof.
  unfold stream_ok, cursor_in_capacity.
  intros Ht [Hc Hs] Hop. destruct o; simpl in Ht; try discriminate; simpl in Hop.
  - destruct (state_read_cb p esize nmemb ctx) as [[[r p'] c] |] eqn:E;
      simpl in Hop; [| discriminate].
    inversion Hop; subst c. apply state_read_cb_pos in E.
    destruct E as [Es [E | [E | [E Hle]]]]; rewrite Es, E.
    + auto.
    + rewrite to_size_t_small by lia. lia.
    + rewrite <- E. pose proof (to_size_t_range (pos ctx + to_size_t (esize * nmemb))).
      rewrite <- E in H. lia.
  - destruct (state_write_cb p esize nmemb ctx) as [[r c] |] eqn:E;
      simpl in Hop; [| discriminate].
    inversion Hop; subst c. apply state_write_cb_pos in E.
    destruct E as [Es [E | [E | [E Hle]]]]; rewrite Es, E.
    + auto.
    + rewrite to_size_t_small by lia. lia.
    + rewrite <- E. pose proof (to_size_t_range (pos ctx + to_size_t (esize * nmemb))).
      rewrite <- E in H. lia.
  - inversion Hop; subst. auto.
Qed.

Lemma any_op_keeps_cursor_in_word (o : stream_op) (ctx ctx' : state_context) :
  cursor_in_word ctx -> apply_op o ctx = Ok ctx' -> cursor_in_word ctx'.
Proof.
  unfold cursor_in_word. intros Hw Hop. destruct o; simpl in Hop.
  - destruct (state_read_cb p esize nmemb ctx) as [[[r p'] c] |] eqn:E;
      simpl in Hop; [| discriminate].
    inversion Hop; subst c. apply state_read_cb_pos in E.
    destruct E as [_ [E | [E | [E _]]]]; rewrite E;
      auto using to_size_t_range.
  - destruct (state_write_cb p esize nmemb ctx) as [[r c] |] eqn:E;
      simpl in Hop; [| discriminate].
    inversion Hop; subst c. apply state_write_cb_pos in E.
    destruct E as [_ [E | [E | [E _]]]]; rewrite E;
      auto using to_size_t_range.
  - inversion Hop; subst; simpl. apply to_size_t_range.
  - inversion Hop; subst. assumption.
  - inversion Hop; subst. unfold state_seek_cb; simpl.
    destruct (whence =? SEEK_SET); [apply to_size_t_range |].
    destruct (whence =? SEEK_CUR); [apply to_size_t_range |].
    destruct (whence =? SEEK_END); [apply to_size_t_range | assumption].
Qed.

Lemma visited_transfers_stream_ok (ops : list stream_op) :
  forallb is_transfer ops = true ->
  forall ctx, stream_ok ctx -> Forall stream_ok (visited ops ctx).
Proof.
  induction ops as [| o ops IH]; intros Ht ctx Hok; simpl.
  - constructor; [assumption | constructor].
  - simpl in Ht. apply andb_true_iff in Ht. destruct Ht as [Ho Hops].
    constructor; [assumption |].
    destruct (apply_op o ctx) as [c |] eqn:E; [| constructor].
    apply IH; [assumption |].
    eapply transfer_keeps_stream_ok; eassumption.
Qed.

Lemma visited_cursor_in_word (ops : list stream_op) :
  forall ctx, cursor_in_word ctx -> Forall cursor_in_word (visited ops ctx).
Proof.
  induction ops as [| o ops IH]; intros ctx Hw; simpl.
  - constructor; [assumption | constructor].
  - constructor; [assumption |].
    destruct (apply_op o ctx) as [c |] eqn:E; [| constructor].
    apply IH. eapply any_op_keeps_cursor_in_word; eassumption.
Qed.

(** C1 (amended).  On a stream that starts with cursor = 0, as long as only
    Read, Write and Eof are applied the cursor satisfies
    0 <= cursor <= capacity at every point; once Skip or Seek are applied as
    well, the cursor is only known to be a [size_t] value,
    0 <= cursor < 2^32, because neither of them clamps. *)
Theorem stream_cursor_bounds (ops1 ops2 : list stream_op)
    (ctx : state_context) :
  0 <= size ctx < SIZE_MOD ->
  pos ctx = 0 ->
  forallb is_transfer ops1 = true ->
  Forall cursor_in_capacity (visited ops1 ctx) /\
  Forall cursor_in_word (visited (ops1 ++ ops2) ctx).
Proof.
  intros Hs Hp Ht. split.
  - assert (Hok : Forall stream_ok (visited ops1 ctx)).
    { apply visited_transfers_stream_ok; [assumption |].
      unfold stream_ok, cursor_in_capacity. rewrite Hp. lia. }
    eapply Forall_impl; [| exact Hok]. intros c [Hc _]. exact Hc.
  - apply visited_cursor_in_word. unfold cursor_in_word. rewrite Hp.
    split; [lia | reflexivity].
Qed.

Lemma stream_cursor_bounds_witness :
  Forall cursor_in_capacity
    (visited [OpWrite [x01; x02; x03] 1 3; OpRead [x00; x00] 2 1; OpEof;
              OpWrite sample_bytes 1 16]
       sample_stream) /\
  Forall cursor_in_word
    (visited ([OpWrite [x01; x02; x03] 1 3; OpRead [x00; x00] 2 1; OpEof;
               OpWrite sample_bytes 1 16]
              ++ [OpSkip 1 32; OpSeek (-1) SEEK_SET])
       sample_stream).
Proof.
  apply stream_cursor_bounds.
  - simpl. unfold SIZE_MOD. lia.
  - reflexivity.
  - reflexivity.
Defined.

(** C1, as stated, fails: from cursor = 0 on a 16-byte stream, Skip of 32
    bytes leaves the cursor at 32, Seek to 1 past the end leaves it at 17,
    and an absolute Seek to -1 leaves it at 4294967295. *)
Lemma skip_and_seek_do_not_clamp :
  pos sample_stream = 0 /\
  map pos (visited [OpSkip 1 32] sample_stream) = [0; 32] /\
  map pos (visited [OpSeek 1 SEEK_END] sample_stream) = [0; 17] /\
  map pos (visited [OpSeek (-1) SEEK_SET] sample_stream) = [0; 4294967295] /\
  ~ Forall cursor_in_capacity (visited [OpSkip 1 32] sample_stream) /\
  ~ Forall cursor_in_capacity (visited [OpSeek 1 SEEK_END] sample_stream) /\
  ~ Forall cursor_in_capacity (visited [OpSeek (-1) SEEK_SET] sample_stream).
Proof.
  repeat split; try reflexivity;
    intros H; cbn in H; apply Forall_inv_tail, Forall_inv in H;
    vm_compute in H; destruct H as [_ H]; apply H; reflexivity.
Qed.

(** ** Clipped writes *)

(** C5.  A Write of n bytes when only k < n bytes of capacity remain
    (k >= 0) copies exactly the first k bytes to the backing buffer at the
    cursor, advances the cursor by k and returns k.  The source object holds
    the n bytes, the backing buffer holds the stream, and both are objects of
    one 32-bit address space. *)
Theorem write_clipped_to_remaining (p buf : buffer) (esize nmemb : Z)
    (ctx : state_context) (n k : Z) :
  save_buf ctx = Some buf ->
  0 <= pos ctx ->
  size ctx <= blen buf ->
  n = to_size_t (esize * nmemb) ->
  n <= blen p ->
  blen p + blen buf < SIZE_MOD ->
  k = size ctx - pos ctx ->
  0 <= k < n ->
  exists ctx',
    state_write_cb p esize nmemb ctx = Ok (k, ctx') /\
    pos ctx' = pos ctx + k /\
    save_buf ctx' =
      Some (firstn (Z.to_nat (pos ctx)) buf
            ++ firstn (Z.to_nat k) p
            ++ skipn (Z.to_nat (pos ctx + k)) buf) /\
    size ctx' = size ctx /\
    load_buf ctx' = load_buf ctx.
Proof.
  intros Hbuf Hpos Hcap Hn Hsrc Hspace Hk Hkn.
  unfold state_write_cb. rewrite <- Hn.
  assert (Hsum : to_size_t (pos ctx + n) = pos ctx + n)
    by (apply to_size_t_small; lia).
  rewrite Hsum.
  destruct (Z.gtb_spec (pos ctx + n) (size ctx)) as [_ | Hle]; [| lia].
  assert (Hclip : to_size_t (size ctx - pos ctx) = k)
    by (rewrite <- Hk; apply to_size_t_small; lia).
  rewrite Hclip.
  assert (Hint : to_int k = k)
    by (apply to_int_small; unfold INT_MAX, SIZE_MOD in *; lia).
  rewrite Hint.
  destruct (Z.leb_spec k 0) as [Hz | Hnz].
  - assert (Hk0 : k = 0) by lia. rewrite Hk0.
    exists ctx. repeat split; try lia.
    rewrite Hbuf. f_equal. simpl.
    rewrite Z.add_0_r. symmetry. apply firstn_skipn.
  - rewrite Hbuf. simpl.
    rewrite memcpy_ok by lia. simpl.
    eexists. split; [reflexivity |]. simpl.
    repeat split.
    apply to_size_t_small. lia.
Qed.

Lemma write_clipped_to_remaining_witness :
  exists ctx',
    state_write_cb [x01; x02; x03; x04; x05; x06] 1 6
      (set_pos sample_stream 12) = Ok (4, ctx') /\
    pos ctx' = 12 + 4 /\
    save_buf ctx' =
      Some (firstn (Z.to_nat 12) sample_bytes
            ++ firstn (Z.to_nat 4) [x01; x02; x03; x04; x05; x06]
            ++ skipn (Z.to_nat (12 + 4)) sample_bytes) /\
    size ctx' = 16 /\
    load_buf ctx' = Some sample_bytes.
Proof.
  apply (write_clipped_to_remaining [x01; x02; x03; x04; x05; x06]
           sample_bytes 1 6 (set_pos sample_stream 12) 6 4);
    try reflexivity; vm_compute; try split; congruence.
Defined.

(** ** Reads at or past the end *)

(** When the cursor is at or past the end by at most 2^31 bytes and the
    request does not wrap the cursor around, Read transfers nothing, returns
    0 and leaves the context alone, and Eof reports true. *)
Lemma read_past_end_in_range (p src : buffer) (esize nmemb : Z)
    (ctx : state_context) :
  load_buf ctx = Some src ->
  0 <= size ctx <= blen src ->
  size ctx <= pos ctx ->
  pos ctx - size ctx <= 2 ^ 31 ->
  pos ctx + to_size_t (esize * nmemb) < SIZE_MOD ->
  state_read_cb p esize nmemb ctx = Ok (0, p, ctx) /\ state_eof_cb ctx = 1.
Proof.
  intros Hsrc Hsize Hpast Hnear Hnowrap.
  pose proof (to_size_t_range (esize * nmemb)) as Hn.
  split.
  - unfold state_read_cb.
    rewrite (to_size_t_small (pos ctx + to_size_t (esize * nmemb))) by lia.
    destruct (Z.gtb_spec (pos ctx + to_size_t (esize * nmemb)) (size ctx))
      as [Hgt | Hle].
    + destruct (Z.eq_dec (pos ctx) (size ctx)) as [Heq | Hne].
      * rewrite Heq, Z.sub_diag. reflexivity.
      * unfold to_size_t at 1.
        replace (size ctx - pos ctx)
          with ((SIZE_MOD - (pos ctx - size ctx)) + (-1) * SIZE_MOD) by lia.
        rewrite Z.mod_add by (unfold SIZE_MOD; lia).
        rewrite Z.mod_small by (unfold SIZE_MOD in *; lia).
        rewrite to_int_high by (unfold SIZE_MOD in *; lia).
        destruct (Z.leb_spec (SIZE_MOD - (pos ctx - size ctx) - SIZE_MOD) 0);
          [reflexivity | lia].
    + assert (Hz : to_size_t (esize * nmemb) = 0) by lia.
      pose proof (blen_nonneg p) as Hp.
      rewrite Hz, Hsrc. simpl.
      rewrite memcpy_ok by lia. simpl.
      rewrite Z.add_0_r, set_pos_same. reflexivity.
  - unfold state_eof_cb.
    destruct (Z.geb_spec (pos ctx) (size ctx)); [reflexivity | lia].
Qed.

(** C6, at the failing input.  On a 16-byte stream an absolute Seek to -1
    stores 4294967295 in the cursor and Eof reports true, but a Read of one
    4-byte element then finds cursor + 4 wrapped to 3, does not clip, and
    asks memcpy for 4 bytes at displacement 4294967295 of the 16-byte
    buffer instead of returning 0. *)
Theorem read_after_seek_minus_one :
  let ctx := snd (state_seek_cb (-1) SEEK_SET sample_stream) in
  pos ctx = 4294967295 /\
  size ctx <= pos ctx /\
  state_eof_cb ctx = 1 /\
  to_size_t (pos ctx + to_size_t (1 * 4)) = 3 /\
  state_read_cb [x00; x00; x00; x00] 1 4 ctx
    = Fault (OOB_read 4294967295 4 16) /\
  state_read_cb [x00; x00; x00; x00] 1 4 ctx
    <> Ok (0, [x00; x00; x00; x00], ctx).
Proof.
  cbv zeta. repeat split; try reflexivity.
  - vm_compute. discriminate.
  - vm_compute. discriminate.
Qed.

(** ** Save and load entry points *)

(** A run of the serializer with the callbacks [pico_state_save] passes
    leaves the stream on a buffer if it started on one. *)
Lemma save_run_keeps_buffer (prog : serializer) :
  forall (ctx ctx' : state_context) (status : Z),
    run_serializer prog None (Some state_write_cb) None (Some state_seek_cb)
      ctx = Ok (status, ctx') ->
    save_buf ctx <> None -> save_buf ctx' <> None.
Proof.
  induction prog as [status0 | p esize nmemb k IH | p esize nmemb k IH
                     | k IH | offset whence k IH];
    intros ctx ctx' status Hrun Hbuf;
    cbn [run_serializer call bind] in Hrun.
  - inversion Hrun. subst. exact Hbuf.
  - discriminate.
  - destruct (state_write_cb p esize nmemb ctx) as [[r c] |] eqn:Ew;
      cbn [bind] in Hrun; [| discriminate].
    apply (IH _ _ _ _ Hrun).
    unfold state_write_cb in Ew. cbv zeta in Ew.
    destruct (save_buf ctx) as [dst |] eqn:Hd; [| contradiction].
    cbn [deref bind] in Ew.
    repeat match type of Ew with
           | context [if ?c then _ else _] => destruct c
           | context [memcpy ?a ?b ?c ?d ?e] =>
               destruct (memcpy a b c d e); cbn [bind] in Ew
           end;
      try discriminate; inversion Ew; subst c; cbn [save_buf set_pos
                                                     set_save_buf];
      try rewrite Hd; discriminate.
  - discriminate.
  - destruct (state_seek_cb offset whence ctx) as [r c] eqn:Es.
    apply (IH _ _ _ _ Hrun).
    unfold state_seek_cb in Es. cbv zeta in Es. inversion Es. subst c.
    repeat match goal with
           | |- context [if ?c then _ else _] => destruct c
           end; cbn [save_buf set_pos]; exact Hbuf.
Qed.

(** C3 (amended).  With a game loaded and the state buffer allocated: when
    the core serializer returns status 0, [pico_state_save] returns 1 and
    [state_size] is the stream's final cursor; when it returns any other
    status, [pico_state_save] returns 0 and [state_size] keeps its value.
    In both cases the state buffer holds whatever the serializer left in it:
    nothing is rolled back.  After a failed save [pico_get_state_size],
    [pico_state_exists] and [pico_get_state_buffer] answer as they did
    before the call, over the bytes the failed save wrote. *)
Theorem pico_state_save_status (core : Z -> serializer)
    (malloc : Z -> option buffer) (st : web_state) (buf : buffer)
    (status : Z) (ctx' : state_context) :
  game_loaded st <> 0 ->
  state_buffer st = Some buf ->
  PicoStateFP core
    {| load_buf := None; save_buf := state_buffer st;
       size := STATE_MAX_SIZE; pos := 0 |}
    1 None (Some state_write_cb) None (Some state_seek_cb)
    = Ok (status, ctx') ->
  exists st',
    pico_state_save core malloc st
      = Ok ((if status =? 0 then 1 else 0), st') /\
    state_size st' = (if status =? 0 then pos ctx' else state_size st) /\
    state_buffer st' = save_buf ctx' /\
    trace st' = trace st ++ [Ev_PicoStateFP 1] /\
    (status <> 0 ->
     pico_get_state_size st' = pico_get_state_size st /\
     pico_state_exists st' = pico_state_exists st /\
     pico_get_state_buffer st' = pico_get_state_buffer st).
Proof.
  intros Hgame Hbuf Hrun.
  assert (Hkept : save_buf ctx' <> None).
  { unfold PicoStateFP in Hrun.
    apply (save_run_keeps_buffer _ _ _ _ Hrun).
    cbn [save_buf]. rewrite Hbuf. discriminate. }
  unfold pico_state_save.
  destruct (Z.eqb_spec (game_loaded st) 0) as [Hz | _]; [contradiction |].
  rewrite Hbuf. rewrite Hbuf in Hrun. cbv zeta.
  replace (state_buffer (emit st (Ev_PicoStateFP 1))) with (Some buf)
    by (symmetry; exact Hbuf).
  rewrite Hbuf. rewrite Hrun. cbn [bind].
  destruct (Z.eqb_spec status 0) as [Hs | Hs]; cbn [negb];
    eexists; (split; [reflexivity |]); web_simpl;
    (split; [reflexivity |]); (split; [reflexivity |]);
    (split; [reflexivity |]); intros Hne; [contradiction |].
  unfold pico_get_state_size, pico_state_exists, pico_get_state_buffer.
  web_simpl. rewrite Hbuf.
  destruct (save_buf ctx'); [| contradiction].
  repeat split; reflexivity.
Qed.

Lemma pico_state_save_status_witness :
  (exists st',
     pico_state_save sample_save sample_malloc (running_state 32)
       = Ok ((if 0 =? 0 then 1 else 0), st') /\
     state_size st' = (if 0 =? 0 then 6 else 0) /\
     state_buffer st' =
       Some ([x01; x02; x03; x04; x05; x06] ++ repeat x00 26) /\
     trace st' = [] ++ [Ev_PicoStateFP 1] /\
     (0 <> 0 ->
      pico_get_state_size st' = pico_get_state_size (running_state 32) /\
      pico_state_exists st' = pico_state_exists (running_state 32) /\
      pico_get_state_buffer st'
        = pico_get_state_buffer (running_state 32))) /\
  (exists st',
     pico_state_save failing_save sample_malloc (running_state 32)
       = Ok ((if -1 =? 0 then 1 else 0), st') /\
     state_size st' = (if -1 =? 0 then 6 else 0) /\
     state_buffer st' =
       Some ([x01; x02; x03; x04; x05; x06] ++ repeat x00 26) /\
     trace st' = [] ++ [Ev_PicoStateFP 1] /\
     (-1 <> 0 ->
      pico_get_state_size st' = pico_get_state_size (running_state 32) /\
      pico_state_exists st' = pico_state_exists (running_state 32) /\
      pico_get_state_buffer st'
        = pico_get_state_buffer (running_state 32))).
Proof.
  split.
  - apply (pico_state_save_status sample_save sample_malloc (running_state 32)
             (repeat x00 32) 0
             {| load_buf := None;
                save_buf := Some ([x01; x02; x03; x04; x05; x06]
                                  ++ repeat x00 26);
                size := STATE_MAX_SIZE; pos := 6 |}).
    + simpl. lia.
    + reflexivity.
    + reflexivity.
  - apply (pico_state_save_status failing_save sample_malloc (running_state 32)
             (repeat x00 32) (-1)
             {| load_buf := None;
                save_buf := Some ([x01; x02; x03; x04; x05; x06]
                                  ++ repeat x00 26);
                size := STATE_MAX_SIZE; pos := 6 |}).
    + simpl. lia.
    + reflexivity.
    + reflexivity.
Defined.

(** C3, as stated, fails: after a save of eight bytes has succeeded, a save
    whose serializer writes six bytes and then reports -1 returns 0, and the
    host still sees a state of size 8 at the same pointer, but the first six
    of its bytes are those of the failed save. *)
Lemma failed_save_leaves_partial_blob :
  let saved :=
    set_state_size
      (set_state_buffer (emit (running_state 32) (Ev_PicoStateFP 1))
         (Some ([xa1; xa2; xa3; xa4; xa5; xa6; xa7; xa8] ++ repeat x00 24)))
      8 in
  let failed :=
    set_state_buffer (emit saved (Ev_PicoStateFP 1))
      (Some ([x01; x02; x03; x04; x05; x06; xa7; xa8] ++ repeat x00 24)) in
  pico_state_save earlier_save sample_malloc (running_state 32)
    = Ok (1, saved) /\
  pico_state_save failing_save sample_malloc saved = Ok (0, failed) /\
  pico_state_exists failed = 1 /\
  pico_get_state_size failed = 8 /\
  pico_get_state_buffer failed
    = Some {| ptr_obj := Obj_state_buffer; ptr_off := 0 |} /\
  state_buffer failed
    = Some ([x01; x02; x03; x04; x05; x06; xa7; xa8] ++ repeat x00 24) /\
  state_buffer failed <> state_buffer saved.
Proof.
  cbv zeta. repeat split; try reflexivity.
  web_simpl. cbn [app]. intros H. discriminate H.
Qed.

(** C7.  [pico_state_load] returns 0 when the declared blob size is 0 or no
    game is loaded, and [pico_state_save] returns 0 when no game is loaded;
    in each case the whole state comes back as it was: no buffer (pixel,
    audio, state) is changed and the log holds no call of the serializer. *)
Theorem state_entry_points_fail_clean (core : Z -> serializer)
    (malloc : Z -> option buffer) (st_load st_save : web_state) :
  game_loaded st_load = 0 \/ state_size st_load = 0 ->
  game_loaded st_save = 0 ->
  pico_state_load core st_load = Ok (0, st_load) /\
  pico_state_save core malloc st_save = Ok (0, st_save).
Proof.
  intros Hload Hsave. split.
  - unfold pico_state_load.
    destruct (Z.eqb_spec (game_loaded st_load) 0) as [_ | Hg]; [reflexivity |].
    destruct Hload as [Hz | Hz]; [contradiction |].
    destruct (state_buffer st_load); [| reflexivity].
    rewrite Hz. reflexivity.
  - unfold pico_state_save. rewrite Hsave. reflexivity.
Qed.

Lemma state_entry_points_fail_clean_witness :
  pico_state_load sample_save (running_state 32)
    = Ok (0, running_state 32) /\
  pico_state_save sample_save sample_malloc initial_state
    = Ok (0, initial_state).
Proof.
  apply (state_entry_points_fail_clean sample_save sample_malloc
           (running_state 32) initial_state).
  - right. reflexivity.
  - reflexivity.
Defined.

(** Declaring a blob of size 0 and then loading fails in every state, with
    the state as the declaration left it. *)
Lemma load_of_declared_size_zero (core : Z -> serializer)
    (malloc : Z -> option buffer) (st : web_state) :
  let declared := snd (pico_get_state_load_buffer malloc 0 st) in
  pico_state_load core declared = Ok (0, declared).
Proof.
  cbv zeta. unfold pico_get_state_load_buffer, pico_state_load.
  destruct (state_buffer st) as [b |] eqn:Hb.
  - web_simpl. cbn [snd]. web_simpl. rewrite Hb.
    destruct (game_loaded st =? 0); reflexivity.
  - destruct (malloc STATE_MAX_SIZE) as [b |]; cbn [snd]; web_simpl.
    + destruct (game_loaded st =? 0); reflexivity.
    + rewrite Hb. destruct (game_loaded st =? 0); reflexivity.
Qed.

(** ** Video mode changes *)

(** What one call leaves in the statics and appends to the log. *)
Lemma emu_video_mode_change_result (window : host_window)
    (start_line line_count start_col col_count : Z) (st : web_state) :
  let st' := emu_video_mode_change window start_line line_count start_col
               col_count st in
  let offset := to_int (to_int (col_count * start_line) * 2) in
  let limit := to_int (to_int (col_count * (VOUT_MAX_HEIGHT - 1)) * 2) in
  vout_width st' = col_count /\
  vout_height st' = Z.min line_count VOUT_MAX_HEIGHT /\
  vout_offset st' = Z.min offset limit /\
  vout_buf st' = memset_zero (vout_buf st)
                   (VOUT_MAX_WIDTH * VOUT_MAX_HEIGHT * 2) /\
  trace st' = trace st
              ++ [Ev_PicoDrawSetOutBuf (to_int (col_count * 2))]
              ++ (if has_onVideoModeChange window
                  then [Ev_onVideoModeChange col_count
                          (Z.min line_count VOUT_MAX_HEIGHT)]
                  else [])
              ++ [Ev_dirtyPal 1].
Proof.
  unfold emu_video_mode_change, emu_video_mode_change_body.
  cbn [run_statements]. web_simpl. split_ifs;
    rewrite ?Z.gtb_ltb, ?Z.ltb_lt, ?Z.ltb_ge in *;
    rewrite <- ?app_assoc; cbn [app];
    try rewrite (Z.min_r line_count VOUT_MAX_HEIGHT) by lia;
    try rewrite (Z.min_l line_count VOUT_MAX_HEIGHT) by lia;
    repeat split; try reflexivity; lia.
Qed.

(** The reported mode is cached as it came. *)
Lemma video_mode_change_cache (window : host_window)
    (start_line line_count start_col col_count : Z) (st : web_state) :
  let st' := emu_video_mode_change window start_line line_count start_col
               col_count st in
  vm_current_start_line st' = start_line /\
  vm_current_line_count st' = line_count /\
  vm_current_start_col st' = start_col /\
  vm_current_col_count st' = col_count.
Proof.
  unfold emu_video_mode_change, emu_video_mode_change_body.
  cbn [run_statements]. web_simpl. split_ifs;
    repeat split; reflexivity.
Qed.

(** C2 (amended).  After every [emu_video_mode_change], whatever the mode
    report, the visible height is at most 240 and the byte offset is at most
    width * (MAX_HEIGHT - 1) * 2 as the code evaluates it in [int]; the
    width is the reported col_count as it came and the offset is the smaller
    of width * start_line * 2 and that limit, with no lower clamp. *)
Theorem video_mode_change_clamps (window : host_window)
    (start_line line_count start_col col_count : Z) (st : web_state) :
  let st' := emu_video_mode_change window start_line line_count start_col
               col_count st in
  vout_height st' <= VOUT_MAX_HEIGHT /\
  vout_offset st'
    <= to_int (to_int (vout_width st' * (VOUT_MAX_HEIGHT - 1)) * 2) /\
  vout_width st' = col_count /\
  vout_height st' = Z.min line_count VOUT_MAX_HEIGHT /\
  vout_offset st'
    = Z.min (to_int (to_int (col_count * start_line) * 2))
            (to_int (to_int (col_count * (VOUT_MAX_HEIGHT - 1)) * 2)).
Proof.
  cbv zeta.
  destruct (emu_video_mode_change_result window start_line line_count
              start_col col_count st) as (Hw & Hh & Ho & _).
  rewrite Hw, Hh, Ho. repeat split; lia.
Qed.

(** C2, as stated, fails: a report of 400 columns makes the width 400, a
    report of start line -1 makes the offset -640, and 400 columns from line
    239 put the pixel pointer 191200 bytes into the 153600-byte buffer. *)
Lemma malformed_mode_leaves_bounds :
  vout_width (emu_video_mode_change page_with_handlers 0 224 0 400
                initial_state) = 400 /\
  ~ vout_width (emu_video_mode_change page_with_handlers 0 224 0 400
                  initial_state) <= VOUT_MAX_WIDTH /\
  vout_offset (emu_video_mode_change page_with_handlers (-1) 224 0 320
                 initial_state) = -640 /\
  ~ 0 <= vout_offset (emu_video_mode_change page_with_handlers (-1) 224 0 320
                        initial_state) /\
  ptr_off (pico_get_video_buffer
             (emu_video_mode_change page_with_handlers 239 240 0 400
                initial_state)) = 191200 /\
  ~ ptr_off (pico_get_video_buffer
               (emu_video_mode_change page_with_handlers 239 240 0 400
                  initial_state))
    < VOUT_MAX_WIDTH * VOUT_MAX_HEIGHT * 2.
Proof.
  repeat split; try reflexivity; intros H; vm_compute in H;
    first [discriminate H | apply H; reflexivity].
Qed.

(** For a report inside the buffer the pixel pointer and the visible row it
    points at stay inside the pixel buffer. *)
Lemma video_pointer_in_buffer (window : host_window)
    (start_line line_count start_col col_count : Z) (st : web_state) :
  0 <= col_count <= VOUT_MAX_WIDTH ->
  0 <= start_line ->
  col_count * start_line * 2 <= INT_MAX ->
  let st' := emu_video_mode_change window start_line line_count start_col
               col_count st in
  0 <= ptr_off (pico_get_video_buffer st') /\
  ptr_off (pico_get_video_buffer st') + vout_width st' * 2
    <= VOUT_MAX_WIDTH * VOUT_MAX_HEIGHT * 2.
Proof.
  intros Hc Hs Hno. cbv zeta. unfold pico_get_video_buffer. cbn [ptr_off].
  destruct (emu_video_mode_change_result window start_line line_count
              start_col col_count st) as (Hw & _ & Ho & _).
  rewrite Hw, Ho. unfold VOUT_MAX_WIDTH, VOUT_MAX_HEIGHT, INT_MAX in *.
  assert (0 <= col_count * start_line) by nia.
  rewrite (to_int_small (col_count * start_line))
    by (unfold INT_MAX; lia).
  rewrite (to_int_small (col_count * start_line * 2))
    by (unfold INT_MAX; lia).
  rewrite (to_int_small (col_count * (240 - 1)))
    by (unfold INT_MAX; lia).
  rewrite (to_int_small (col_count * (240 - 1) * 2))
    by (unfold INT_MAX; lia).
  lia.
Qed.

(** C4.  For every valid display mode within the hardware limits (the start
    line is one of the MAX_HEIGHT lines of the frame, line_count is at most
    MAX_HEIGHT, and col_count is a column count of at most MAX_WIDTH) the
    width is col_count, the height is line_count, and
    offset = width * start_line * 2 with
    0 <= offset <= width * (MAX_HEIGHT - 1) * 2; the event (8, 224, 0, 320)
    gives width 320, height 224 and offset 5120, and
    [pico_get_video_buffer] then points 5120 bytes into the pixel buffer. *)
Theorem video_mode_offset_in_limits (window : host_window)
    (start_line line_count start_col col_count : Z) (st : web_state) :
  0 <= start_line <= VOUT_MAX_HEIGHT - 1 ->
  line_count <= VOUT_MAX_HEIGHT ->
  0 <= col_count <= VOUT_MAX_WIDTH ->
  let st' := emu_video_mode_change window start_line line_count start_col
               col_count st in
  let ex := emu_video_mode_change window 8 224 0 320 st in
  vout_width st' = col_count /\
  vout_height st' = line_count /\
  vout_offset st' = vout_width st' * start_line * 2 /\
  0 <= vout_offset st' <= vout_width st' * (VOUT_MAX_HEIGHT - 1) * 2 /\
  vout_width ex = 320 /\
  vout_height ex = 224 /\
  vout_offset ex = 5120 /\
  pico_get_video_buffer ex = {| ptr_obj := Obj_vout_buf; ptr_off := 5120 |}.
Proof.
  intros Hs Hl Hc. cbv zeta.
  destruct (emu_video_mode_change_result window start_line line_count
              start_col col_count st) as (Hw & Hh & Ho & _).
  destruct (emu_video_mode_change_result window 8 224 0 320 st)
    as (Hw8 & Hh8 & Ho8 & _).
  unfold pico_get_video_buffer.
  rewrite Hw, Hh, Ho, Hw8, Hh8, Ho8.
  unfold VOUT_MAX_WIDTH, VOUT_MAX_HEIGHT in *.
  assert (0 <= col_count * start_line <= 320 * 239) by nia.
  rewrite (to_int_small (col_count * start_line))
    by (unfold INT_MAX; lia).
  rewrite (to_int_small (col_count * start_line * 2))
    by (unfold INT_MAX; lia).
  rewrite (to_int_small (col_count * (240 - 1)))
    by (unfold INT_MAX; lia).
  rewrite (to_int_small (col_count * (240 - 1) * 2))
    by (unfold INT_MAX; lia).
  repeat split; try reflexivity; try nia.
Qed.

Lemma video_mode_offset_in_limits_witness :
  let st' := emu_video_mode_change page_with_handlers 16 192 0 256
               initial_state in
  let ex := emu_video_mode_change page_with_handlers 8 224 0 320
              initial_state in
  vout_width st' = 256 /\
  vout_height st' = 192 /\
  vout_offset st' = vout_width st' * 16 * 2 /\
  0 <= vout_offset st' <= vout_width st' * (VOUT_MAX_HEIGHT - 1) * 2 /\
  vout_width ex = 320 /\
  vout_height ex = 224 /\
  vout_offset ex = 5120 /\
  pico_get_video_buffer ex = {| ptr_obj := Obj_vout_buf; ptr_off := 5120 |}.
Proof.
  apply (video_mode_offset_in_limits page_with_handlers 16 192 0 256
           initial_state); unfold VOUT_MAX_HEIGHT, VOUT_MAX_WIDTH; lia.
Defined.

(** A report that is not a display mode of the frame falls outside the
    formula: a start line of 300, beyond the last line of the frame, gives
    the clamp 152960 instead of 320 * 300 * 2, and a column count of -1 gives
    the offset -478. *)
Lemma report_outside_frame_offset :
  vout_offset (emu_video_mode_change page_with_handlers 300 224 0 320
                 initial_state) = 152960 /\
  vout_offset (emu_video_mode_change page_with_handlers 300 224 0 320
                 initial_state) <> 320 * 300 * 2 /\
  vout_offset (emu_video_mode_change page_with_handlers 8 224 0 (-1)
                 initial_state) = -478 /\
  ~ 0 <= vout_offset (emu_video_mode_change page_with_handlers 8 224 0 (-1)
                        initial_state).
Proof.
  repeat split; try reflexivity; intros H; vm_compute in H;
    first [discriminate H | apply H; reflexivity].
Qed.

(** A run ends in the last state it passes through. *)
Lemma run_statements_last (body : list statement) (st d : web_state) :
  last (states_through body st) d = run_statements body st.
Proof.
  revert st. induction body as [| stmt rest IH]; intros st.
  - reflexivity.
  - cbn [run_statements]. rewrite <- (IH (stmt st)).
    destruct rest; reflexivity.
Qed.

(** C8 (amended).  The states one call of [emu_video_mode_change] passes
    through, in program order: the mode is cached (step 1); the width and
    then the height are set as reported (step 2, not yet clamped); the
    pixel buffer is zeroed (step 3); the core is pointed at the buffer with
    pitch width * 2 (step 4); the offset width * start_line * 2 is computed
    (step 5); the height is clamped to 240 and then the offset to
    width * 239 * 2; the host is notified of (width, height) when it has a
    handler (step 7); and only then the palette is marked dirty (step 6).
    The last of these states is the one the call returns, and no state on
    the way differs from the first in any other static. *)
Theorem video_mode_change_step_order (window : host_window)
    (start_line line_count start_col col_count : Z) (st : web_state) :
  let body := emu_video_mode_change_body window start_line line_count
                start_col col_count in
  let sl0 := vm_current_start_line st in
  let lc0 := vm_current_line_count st in
  let sc0 := vm_current_start_col st in
  let cc0 := vm_current_col_count st in
  let w0 := vout_width st in
  let h0 := vout_height st in
  let o0 := vout_offset st in
  let b0 := vout_buf st in
  let t0 := trace st in
  let zeroed := memset_zero b0 (VOUT_MAX_WIDTH * VOUT_MAX_HEIGHT * 2) in
  let pointed := [Ev_PicoDrawSetOutBuf (to_int (col_count * 2))] in
  let h := Z.min line_count VOUT_MAX_HEIGHT in
  let o := to_int (to_int (col_count * start_line) * 2) in
  let limit := to_int (to_int (col_count * (VOUT_MAX_HEIGHT - 1)) * 2) in
  let notified :=
    if has_onVideoModeChange window
    then [Ev_onVideoModeChange col_count h] else [] in
  map video_view (states_through body st)
  = [ (sl0, lc0, sc0, cc0, w0, h0, o0, b0, t0);
      (start_line, line_count, start_col, col_count, w0, h0, o0, b0, t0);
      (start_line, line_count, start_col, col_count,
       col_count, h0, o0, b0, t0);
      (start_line, line_count, start_col, col_count,
       col_count, line_count, o0, b0, t0);
      (start_line, line_count, start_col, col_count,
       col_count, line_count, o0, zeroed, t0);
      (start_line, line_count, start_col, col_count,
       col_count, line_count, o0, zeroed, t0 ++ pointed);
      (start_line, line_count, start_col, col_count,
       col_count, line_count, o, zeroed, t0 ++ pointed);
      (start_line, line_count, start_col, col_count,
       col_count, h, o, zeroed, t0 ++ pointed);
      (start_line, line_count, start_col, col_count,
       col_count, h, Z.min o limit, zeroed, t0 ++ pointed);
      (start_line, line_count, start_col, col_count,
       col_count, h, Z.min o limit, zeroed, t0 ++ pointed ++ notified);
      (start_line, line_count, start_col, col_count,
       col_count, h, Z.min o limit, zeroed,
       t0 ++ pointed ++ notified ++ [Ev_dirtyPal 1]) ] /\
  last (states_through body st) st
  = emu_video_mode_change window start_line line_count start_col col_count
      st /\
  Forall (fun s => beside_video s = beside_video st)
    (states_through body st).
Proof.
  cbv zeta. split; [| split].
  - unfold emu_video_mode_change_body.
    cbn [states_through map]. unfold video_view. web_simpl.
    set (o := to_int (to_int (col_count * start_line) * 2)).
    set (limit := to_int (to_int (col_count * (VOUT_MAX_HEIGHT - 1)) * 2)).
    destruct (Z.gtb_spec line_count VOUT_MAX_HEIGHT) as [Hh | Hh];
      [rewrite (Z.min_r line_count VOUT_MAX_HEIGHT) by lia
      | rewrite (Z.min_l line_count VOUT_MAX_HEIGHT) by lia];
      web_simpl; fold o; fold limit;
      (destruct (Z.gtb_spec o limit) as [Ho | Ho];
       [rewrite (Z.min_r o limit) by lia
       | rewrite (Z.min_l o limit) by lia]);
      web_simpl;
      destruct (has_onVideoModeChange window); web_simpl;
      rewrite <- ?app_assoc; cbn [app]; rewrite ?app_nil_r;
      reflexivity.
  - apply run_statements_last.
  - unfold emu_video_mode_change_body. cbn [states_through].
    unfold beside_video. web_simpl.
    repeat (apply Forall_cons; [split_ifs; reflexivity |]).
    apply Forall_nil.
Qed.

(** C8, as stated, fails: for the event (8, 224, 0, 320) the log reads
    output buffer, host notification, palette dirty; the palette is not
    marked dirty before the host is notified.  And for a report of 300
    lines the height stays 300 from the statement that sets it until after
    the offset has been computed: the clamp of step 2 comes after steps 3
    and 4. *)
Lemma host_notified_before_dirtyPal :
  trace (emu_video_mode_change page_with_handlers 8 224 0 320 initial_state)
    = [Ev_PicoDrawSetOutBuf 640; Ev_onVideoModeChange 320 224; Ev_dirtyPal 1]
  /\
  ~ happens_before is_dirtyPal is_onVideoModeChange
      (trace (emu_video_mode_change page_with_handlers 8 224 0 320
                initial_state)) /\
  happens_before is_onVideoModeChange is_dirtyPal
    (trace (emu_video_mode_change page_with_handlers 8 224 0 320
              initial_state)) /\
  map vout_height
    (states_through
       (emu_video_mode_change_body page_with_handlers 0 300 0 320)
       initial_state)
  = [240; 240; 240; 300; 300; 300; 300; 240; 240; 240; 240].
Proof.
  repeat split.
  - vm_compute. lia.
  - vm_compute. lia.
Qed.

(** [emu_32x_startup] sets the output format and, when a mode has been
    cached, replays it through the whole mode-change procedure. *)
Lemma emu_32x_startup_replays (window : host_window)
    (start_line line_count start_col col_count : Z) (st : web_state) :
  start_line <> -1 -> line_count <> -1 ->
  start_col <> -1 -> col_count <> -1 ->
  let cached := emu_video_mode_change window start_line line_count start_col
                  col_count st in
  emu_32x_startup window cached
  = emu_video_mode_change window start_line line_count start_col col_count
      (emit cached (Ev_PicoDrawSetOutFormat PDF_RGB555 0)).
Proof.
  intros H1 H2 H3 H4. cbv zeta.
  pose proof (video_mode_change_cache window start_line line_count
                start_col col_count st) as Hc.
  cbv zeta in Hc. destruct Hc as (E1 & E2 & E3 & E4).
  remember (emu_video_mode_change window start_line line_count start_col
              col_count st) as cached eqn:Hcached.
  unfold emu_32x_startup. cbv zeta.
  cbn [emit vm_current_start_line vm_current_line_count
       vm_current_start_col vm_current_col_count].
  rewrite E1, E2, E3, E4.
  destruct (Z.eqb_spec start_line (-1)); [contradiction |].
  destruct (Z.eqb_spec line_count (-1)); [contradiction |].
  destruct (Z.eqb_spec start_col (-1)); [contradiction |].
  destruct (Z.eqb_spec col_count (-1)); [contradiction |].
  reflexivity.
Qed.

(** ** Audio flush *)

Lemma typed_store_at_end (done rest : list Z) (old v : Z) :
  typed_store (done ++ old :: rest) (length done) v = done ++ v :: rest.
Proof.
  induction done as [| d done IH]; simpl.
  - reflexivity.
  - now rewrite IH.
Qed.

(** The copy loop fills the slots it has left, in order, from the heap. *)
Lemma audio_copy_loop_fills (HEAP16 : list Z) (ptr : Z) (todo : nat) :
  forall (done rest : list Z),
    length rest = todo ->
    audio_copy_loop todo (Z.of_nat (length done)) HEAP16 ptr (done ++ rest)
    = done ++ map (fun i => HEAP16_get HEAP16 (Z.shiftr ptr 1 + Z.of_nat i))
                (seq (length done) todo).
Proof.
  induction todo as [| todo IH]; intros done rest Hlen.
  - destruct rest; [reflexivity | discriminate].
  - destruct rest as [| old rest]; [discriminate |].
    injection Hlen as Hlen. simpl.
    rewrite Nat2Z.id, typed_store_at_end.
    replace (Z.of_nat (length done) + 1)
      with (Z.of_nat (length (done ++ [HEAP16_get HEAP16
                                         (Z.shiftr ptr 1
                                          + Z.of_nat (length done))])))
      by (rewrite length_app; simpl; lia).
    replace (done ++ HEAP16_get HEAP16 (Z.shiftr ptr 1 + Z.of_nat (length done))
                  :: rest)
      with ((done ++ [HEAP16_get HEAP16
                        (Z.shiftr ptr 1 + Z.of_nat (length done))]) ++ rest)
      by (rewrite <- app_assoc; reflexivity).
    rewrite IH by assumption.
    rewrite length_app, <- app_assoc. simpl.
    replace (length done + 1)%nat with (S (length done)) by lia.
    reflexivity.
Qed.




(** ** Input *)

(** C10.  For a pad index outside {0, 1} and any buttons value,
    [pico_set_input] returns with both controllers' entries, and every other
    static, as they were; for pad 0 or 1 it sets that controller's entry to
    the given bitmask as an [unsigned short] (the bitmask itself when it is
    one, its low 16 bits otherwise) and leaves the other entry and every
    other static as they were.  In no case does it store outside the
    two-entry array. *)
Theorem pico_set_input_frame (pad buttons a b : Z) (st : web_state) :
  input_state st = [a; b] ->
  exists st',
    pico_set_input pad buttons st = Ok st' /\
    input_state st'
      = (if pad =? 0 then [to_ushort buttons; b]
         else if pad =? 1 then [a; to_ushort buttons]
         else [a; b]) /\
    st' = set_input_state st (input_state st') /\
    (pad <> 0 -> pad <> 1 -> st' = st) /\
    0 <= to_ushort buttons < 2 ^ 16 /\
    (0 <= buttons < 2 ^ 16 -> to_ushort buttons = buttons).
Proof.
  intros Hin.
  assert (Hrange : 0 <= to_ushort buttons < 2 ^ 16)
    by (unfold to_ushort; apply Z.mod_pos_bound; lia).
  assert (Hid : 0 <= buttons < 2 ^ 16 -> to_ushort buttons = buttons)
    by (intros Hb; unfold to_ushort; apply Z.mod_small; exact Hb).
  assert (Hsame : st = set_input_state st [a; b])
    by (rewrite <- Hin; destruct st; reflexivity).
  unfold pico_set_input, array_store. cbv zeta. rewrite Hin.
  destruct (Z.eqb_spec pad 0) as [H0 | H0].
  - subst pad. cbn [Z.geb Z.ltb Z.leb Z.compare andb length Z.of_nat
                    Pos.of_succ_nat Pos.succ Pos.compare Pos.compare_cont
                    bind Z.to_nat typed_store].
    eexists. split; [reflexivity |]. web_simpl.
    repeat split; try assumption; try reflexivity; try lia.
  - destruct (Z.eqb_spec pad 1) as [H1 | H1].
    + subst pad. cbn [Z.geb Z.ltb Z.leb Z.compare andb length Z.of_nat
                      Pos.of_succ_nat Pos.succ Pos.compare Pos.compare_cont
                      bind Z.to_nat Pos.to_nat Pos.iter_op Nat.add
                      typed_store].
      eexists. split; [reflexivity |]. web_simpl.
      repeat split; try assumption; try reflexivity; try lia.
    + assert (Hout : (pad >=? 0) && (pad <? 2) = false).
      { apply andb_false_iff.
        destruct (Z.geb_spec pad 0); [right | left; reflexivity].
        apply Z.ltb_ge. lia. }
      rewrite Hout. exists st. web_simpl.
      repeat split; try assumption; try reflexivity; try lia.
      rewrite Hin. exact Hsame.
Qed.

Lemma pico_set_input_frame_witness :
  (exists st',
     pico_set_input 1 129 initial_state = Ok st' /\
     input_state st'
       = (if 1 =? 0 then [to_ushort 129; 0]
          else if 1 =? 1 then [0; to_ushort 129]
          else [0; 0]) /\
     st' = set_input_state initial_state (input_state st') /\
     (1 <> 0 -> 1 <> 1 -> st' = initial_state) /\
     0 <= to_ushort 129 < 2 ^ 16 /\
     (0 <= 129 < 2 ^ 16 -> to_ushort 129 = 129)) /\
  (exists st',
     pico_set_input 2 70000 initial_state = Ok st' /\
     input_state st'
       = (if 2 =? 0 then [to_ushort 70000; 0]
          else if 2 =? 1 then [0; to_ushort 70000]
          else [0; 0]) /\
     st' = set_input_state initial_state (input_state st') /\
     (2 <> 0 -> 2 <> 1 -> st' = initial_state) /\
     0 <= to_ushort 70000 < 2 ^ 16 /\
     (0 <= 70000 < 2 ^ 16 -> to_ushort 70000 = 70000)).
Proof.
  split.
  - apply (pico_set_input_frame 1 129 0 0 initial_state). reflexivity.
  - apply (pico_set_input_frame 2 70000 0 0 initial_state). reflexivity.
Defined.

(** The entry stored for an argument outside [unsigned short] is its low 16
    bits: 70000 is stored as 4464 and -1 as 65535. *)
Lemma pico_set_input_truncates :
  (exists st', pico_set_input 0 70000 initial_state = Ok st'
               /\ input_state st' = [4464; 0]) /\
  (exists st', pico_set_input 1 (-1) initial_state = Ok st'
               /\ input_state st' = [0; 65535]).
Proof.
  split; eexists; split; reflexivity.
Qed.

(** * Further properties of the platform layer *)

(** ** ROM name *)

Lemma c_string_before_nul (kept rest : buffer) :
  c_string (kept ++ x00 :: rest) = c_string kept.
Proof.
  induction kept as [| c kept IH]; simpl.
  - reflexivity.
  - destruct (Byte.eqb c x00); [reflexivity | now rewrite IH].
Qed.

(** Every byte string is a part that does not end in a space, followed by
    spaces. *)
Lemma split_trailing_spaces (l : buffer) :
  exists kept k,
    l = kept ++ repeat SPACE k /\ (forall pre, kept <> pre ++ [SPACE]).
Proof.
  induction l as [| c l IH] using rev_ind.
  - exists [], O. split; [reflexivity |].
    intros pre H. destruct pre; discriminate.
  - destruct (byte_eq_dec c SPACE) as [Hc | Hc].
    + destruct IH as (kept & k & Hl & Hk). subst c.
      exists kept, (S k). split; [| assumption].
      rewrite Hl, <- app_assoc. f_equal.
      change [SPACE] with (repeat SPACE 1). rewrite <- repeat_app.
      f_equal. lia.
    + exists (l ++ [c]), O. split; [now rewrite app_nil_r |].
      intros pre H. apply app_inj_tail in H. destruct H as [_ H].
      contradiction.
Qed.

Lemma load_char_middle (a b : buffer) (c : byte) :
  load_char (a ++ c :: b) (blen a) = Ok c.
Proof.
  unfold load_char, blen. rewrite length_app. simpl.
  destruct (Z.leb_spec 0 (Z.of_nat (length a))); [| lia].
  destruct (Z.ltb_spec (Z.of_nat (length a))
              (Z.of_nat (length a + S (length b)))); [| lia].
  simpl. rewrite Nat2Z.id, nth_middle. reflexivity.
Qed.

Lemma firstn_length_app (a b : buffer) : firstn (length a) (a ++ b) = a.
Proof. induction a as [| x a IH]; simpl; [now destruct b | now rewrite IH]. Qed.

Lemma skipn_past_middle (a b : buffer) (c : byte) :
  skipn (S (length a)) (a ++ c :: b) = b.
Proof. induction a as [| x a IH]; simpl; [reflexivity | exact IH]. Qed.

Lemma store_char_middle (a b : buffer) (c v : byte) :
  store_char (a ++ c :: b) (blen a) v = Ok (a ++ v :: b).
Proof.
  unfold store_char, blen. rewrite length_app. simpl length.
  destruct (Z.leb_spec 0 (Z.of_nat (length a))); [| lia].
  destruct (Z.ltb_spec (Z.of_nat (length a))
              (Z.of_nat (length a + S (length b)))); [| lia].
  cbn [andb]. rewrite Nat2Z.id.
  rewrite firstn_length_app, skipn_past_middle. reflexivity.
Qed.

Lemma repeat_succ_app (x : byte) (k : nat) (t : buffer) :
  repeat x (S k) ++ t = repeat x k ++ x :: t.
Proof.
  induction k as [| k IH]; [reflexivity |].
  change (repeat x (S (S k)) ++ t) with (x :: (repeat x (S k) ++ t)).
  rewrite IH. reflexivity.
Qed.

(** The trimming loop turns the [k] trailing spaces before [tail] into NULs
    and stops at the first other byte or at the start of the array. *)
Lemma trim_loop_spaces (kept : buffer) :
  (forall pre, kept <> pre ++ [SPACE]) ->
  forall (k fuel : nat) (tail : buffer),
    (k < fuel)%nat ->
    trim_loop fuel (blen kept + Z.of_nat k - 1)
      (kept ++ repeat SPACE k ++ tail)
    = Ok (kept ++ repeat x00 k ++ tail).
Proof.
  intros Hkept. induction k as [| k IH]; intros fuel tail Hfuel.
  - destruct fuel as [| fuel]; [lia |]. simpl.
    rewrite Z.add_0_r.
    destruct (Z.geb_spec (blen kept - 1) 0) as [Hi | Hi]; [| reflexivity].
    destruct kept as [| c0 kept0] using rev_ind.
    + unfold blen in Hi. simpl in Hi. lia.
    + clear IHkept0.
      replace (blen (kept0 ++ [c0]) - 1) with (blen kept0)
        by (unfold blen; rewrite length_app; simpl; lia).
      rewrite <- app_assoc. simpl.
      rewrite load_char_middle. simpl.
      destruct (Byte.eqb c0 SPACE) eqn:E; [| reflexivity].
      apply byte_dec_bl in E. subst c0.
      exfalso. apply (Hkept kept0). reflexivity.
  - destruct fuel as [| fuel]; [lia |].
    cbn [trim_loop].
    destruct (Z.geb_spec (blen kept + Z.of_nat (S k) - 1) 0) as [Hi | Hi];
      [| unfold blen in Hi; lia].
    rewrite repeat_succ_app.
    rewrite app_assoc.
    replace (blen kept + Z.of_nat (S k) - 1)
      with (blen (kept ++ repeat SPACE k))
      by (unfold blen; rewrite length_app, repeat_length; lia).
    rewrite load_char_middle. cbn [bind].
    replace (Byte.eqb SPACE SPACE) with true by reflexivity.
    rewrite store_char_middle. cbn [bind].
    replace (blen (kept ++ repeat SPACE k) - 1)
      with (blen kept + Z.of_nat k - 1)
      by (unfold blen; rewrite length_app, repeat_length; lia).
    rewrite <- app_assoc. rewrite IH by lia.
    rewrite repeat_succ_app. reflexivity.
Qed.

(** X1.  With a game loaded, [pico_get_rom_name] returns the 48 title bytes
    at offset 0x20 of the header with the trailing spaces replaced by NULs
    and one more NUL at the end: the title splits as kept ++ k spaces, kept
    not ending in a space, and the 49-byte result is kept ++ k+1 NULs, so
    the C string returned is that of kept.  What the static array held
    before does not matter. *)
Theorem pico_get_rom_name_trims (media_id_header name : buffer)
    (st : web_state) :
  game_loaded st <> 0 ->
  blen name = 49 ->
  80 <= blen media_id_header ->
  exists kept k,
    firstn 48 (skipn 32 media_id_header) = kept ++ repeat SPACE k /\
    (forall pre, kept <> pre ++ [SPACE]) /\
    pico_get_rom_name media_id_header name st
      = Ok (kept ++ repeat x00 (S k)) /\
    c_string (kept ++ repeat x00 (S k)) = c_string kept.
Proof.
  intros Hgame Hname Hhdr.
  destruct (split_trailing_spaces (firstn 48 (skipn 32 media_id_header)))
    as (kept & k & Htitle & Hkept).
  exists kept, k. split; [assumption |]. split; [assumption |].
  assert (Hlen : (length kept + k = 48)%nat).
  { rewrite <- (repeat_length SPACE k), <- length_app, <- Htitle.
    rewrite length_firstn, length_skipn. unfold blen in Hhdr. lia. }
  split.
  - unfold pico_get_rom_name.
    destruct (Z.eqb_spec (game_loaded st) 0); [contradiction |].
    rewrite memcpy_ok by lia. cbn [bind].
    change (Z.to_nat 0) with 0%nat. change (Z.to_nat 32) with 32%nat.
    change (Z.to_nat 48) with 48%nat. change (Z.to_nat (0 + 48)) with 48%nat.
    rewrite Htitle. cbn [firstn app].
    assert (Hrest : exists c, skipn 48 name = [c]).
    { assert (Hl : length (skipn 48 name) = 1%nat)
        by (rewrite length_skipn; unfold blen in Hname; lia).
      destruct (skipn 48 name) as [| c [| ? ?]]; try discriminate.
      exists c. reflexivity. }
    destruct Hrest as [c Hc]. rewrite Hc.
    replace 48 with (blen (kept ++ repeat SPACE k))
      by (unfold blen; rewrite length_app, repeat_length; lia).
    rewrite store_char_middle. cbn [bind].
    replace 47 with (blen kept + Z.of_nat k - 1) by (unfold blen; lia).
    rewrite <- app_assoc.
    rewrite trim_loop_spaces by (assumption || lia).
    rewrite <- (app_nil_r (repeat x00 (S k))), repeat_succ_app.
    reflexivity.
  - change (repeat x00 (S k)) with (x00 :: repeat x00 k).
    apply c_string_before_nul.
Qed.

Lemma pico_get_rom_name_trims_witness :
  exists kept k,
    firstn 48 (skipn 32 sample_header) = kept ++ repeat SPACE k /\
    (forall pre, kept <> pre ++ [SPACE]) /\
    pico_get_rom_name sample_header (repeat xff 49) (running_state 32)
      = Ok (kept ++ repeat x00 (S k)) /\
    c_string (kept ++ repeat x00 (S k)) = c_string kept.
Proof.
  apply (pico_get_rom_name_trims sample_header (repeat xff 49)
           (running_state 32)).
  - simpl. lia.
  - reflexivity.
  - vm_compute. discriminate.
Defined.

(** ** Buttons and region *)

Lemma forallb_below (f : nat -> bool) (n : nat) :
  forallb f (seq 0 n) = true -> forall k, (k < n)%nat -> f k = true.
Proof.
  intros H k Hk. rewrite forallb_forall in H. apply H.
  apply in_seq. lia.
Qed.

Lemma all_held_complete (held : list bool) :
  In held (all_held (length held)).
Proof.
  induction held as [| b held IH]; simpl; [auto |].
  apply in_or_app. destruct b; [left | right]; now apply in_map.
Qed.

(** X2.  The twelve button masks are the single bits 0..11 in the documented
    order (up, down, left, right, B, C, A, start, Z, Y, X, mode), so the OR
    of the masks of any set of held buttons is below 4096 and AND-ing it
    with a button's mask gives that mask when the button is held and 0 when
    it is not. *)
Theorem button_masks_decode (held : list bool) (i : nat) :
  length held = 12%nat ->
  (i < 12)%nat ->
  nth i button_masks 0 = 2 ^ Z.of_nat i /\
  0 <= held_mask held button_masks < 4096 /\
  Z.land (held_mask held button_masks) (nth i button_masks 0)
    = (if nth i held false then nth i button_masks 0 else 0).
Proof.
  intros Hlen Hi.
  assert (Hall : forallb decodes (all_held 12) = true)
    by (vm_compute; reflexivity).
  rewrite forallb_forall in Hall.
  pose proof (all_held_complete held) as Hin. rewrite Hlen in Hin.
  specialize (Hall held Hin). unfold decodes in Hall.
  rewrite !andb_true_iff in Hall. destruct Hall as [[H0 H1] Hbits].
  pose proof (forallb_below _ _ Hbits i Hi) as Hb. cbv beta in Hb.
  apply andb_true_iff in Hb. destruct Hb as [Hm Hd].
  apply Z.leb_le in H0. apply Z.ltb_lt in H1.
  apply Z.eqb_eq in Hm. apply Z.eqb_eq in Hd.
  repeat split; assumption.
Qed.

Lemma button_masks_decode_witness :
  nth 6 button_masks 0 = 2 ^ Z.of_nat 6 /\
  0 <= held_mask [true; false; false; false; false; false;
                  true; true; false; false; false; false] button_masks
    < 4096 /\
  Z.land (held_mask [true; false; false; false; false; false;
                     true; true; false; false; false; false] button_masks)
         (nth 6 button_masks 0)
    = (if nth 6 [true; false; false; false; false; false;
                 true; true; false; false; false; false] false
       then nth 6 button_masks 0 else 0).
Proof.
  apply (button_masks_decode
           [true; false; false; false; false; false;
            true; true; false; false; false; false] 6).
  - reflexivity.
  - lia.
Defined.

(** X3.  For every hardware byte, [pico_get_region] returns its two top
    bits in place, 64 * (hardware / 64): one of 0x00, 0x40, 0x80, 0xc0. *)
Theorem pico_get_region_codes (hardware : Z) :
  0 <= hardware < 256 ->
  pico_get_region hardware = 64 * (hardware / 64) /\
  In (pico_get_region hardware) [0; 64; 128; 192].
Proof.
  intros Hh.
  assert (Hall : forallb
            (fun n => (pico_get_region (Z.of_nat n)
                       =? 64 * (Z.of_nat n / 64))
                      && existsb (Z.eqb (pico_get_region (Z.of_nat n)))
                           [0; 64; 128; 192])
            (seq 0 256) = true) by (vm_compute; reflexivity).
  pose proof (forallb_below _ _ Hall (Z.to_nat hardware)) as Hk.
  cbv beta in Hk. rewrite Z2Nat.id in Hk by lia.
  assert (Hlt : (Z.to_nat hardware < 256)%nat) by lia.
  specialize (Hk Hlt). apply andb_true_iff in Hk. destruct Hk as [H1 H2].
  split; [now apply Z.eqb_eq |].
  apply existsb_exists in H2. destruct H2 as (x & Hin & Hx).
  apply Z.eqb_eq in Hx. rewrite Hx. exact Hin.
Qed.

Lemma pico_get_region_codes_witness :
  pico_get_region 160 = 64 * (160 / 64) /\
  In (pico_get_region 160) [0; 64; 128; 192].
Proof. apply (pico_get_region_codes 160). lia. Defined.

(** ** The .32x extension test *)

Lemma nth_app_offset (a b : buffer) (j : nat) :
  nth (length a + j) (a ++ b) x00 = nth j b x00.
Proof.
  rewrite app_nth2 by lia. f_equal. lia.
Qed.

(** X4.  The extension test of [pico_load_rom] accepts exactly the file
    names that end in ".32x" or ".32X": only the last letter is compared
    without regard to case, and a name shorter than four characters is
    never accepted. *)
Theorem has_32x_extension_iff (filename : buffer) :
  blen filename <= INT_MAX ->
  (has_32x_extension filename = true <->
   exists stem,
     filename = stem ++ [x2e; x33; x32; x78] \/
     filename = stem ++ [x2e; x33; x32; x58]).
Proof.
  intros Hlen. unfold has_32x_extension.
  rewrite to_int_small by (unfold blen, INT_MAX in *; lia).
  split.
  - destruct (Z.geb_spec (blen filename) 4) as [H4 | H4]; [| discriminate].
    intros H.
    pose proof (firstn_skipn (Z.to_nat (blen filename - 4)) filename) as Hs.
    set (stem := firstn (Z.to_nat (blen filename - 4)) filename) in *.
    assert (Hstem : length stem = Z.to_nat (blen filename - 4)).
    { unfold stem. rewrite length_firstn. unfold blen in *. lia. }
    assert (Hext : length (skipn (Z.to_nat (blen filename - 4)) filename)
                   = 4%nat).
    { rewrite length_skipn. unfold blen in *. lia. }
    destruct (skipn (Z.to_nat (blen filename - 4)) filename)
      as [| e0 [| e1 [| e2 [| e3 [| ? ?]]]]]; try discriminate.
    assert (Hn : forall j, 0 <= j ->
              nth (Z.to_nat (blen filename - 4 + j)) filename x00
              = nth (Z.to_nat j) [e0; e1; e2; e3] x00).
    { intros j Hj. rewrite <- Hs at 2.
      replace (Z.to_nat (blen filename - 4 + j))
        with (length stem + Z.to_nat j)%nat by lia.
      apply nth_app_offset. }
    rewrite !Hn in H by lia. simpl in H.
    rewrite !andb_true_iff, !orb_true_iff in H.
    destruct H as [[[H0 H1] H2] H3].
    assert (e0 = x2e) by (destruct H0 as [H0 | H0]; now apply byte_dec_bl).
    apply byte_dec_bl in H1. apply byte_dec_bl in H2.
    exists stem. rewrite <- Hs. subst e0 e1 e2.
    destruct H3 as [H3 | H3]; apply byte_dec_bl in H3; subst e3; auto.
  - intros [stem Hf].
    assert (Hn : forall ext j, 0 <= j ->
              nth (Z.to_nat (Z.of_nat (length stem) + 4 - 4 + j))
                (stem ++ ext) x00
              = nth (Z.to_nat j) ext x00).
    { intros ext j Hj.
      replace (Z.to_nat (Z.of_nat (length stem) + 4 - 4 + j))
        with (length stem + Z.to_nat j)%nat by lia.
      apply nth_app_offset. }
    destruct Hf as [Hf | Hf]; subst filename;
      match goal with
      | |- context [blen (stem ++ ?e)] =>
          replace (blen (stem ++ e)) with (Z.of_nat (length stem) + 4)
            by (unfold blen; rewrite length_app; simpl; lia)
      end;
      (destruct (Z.geb_spec (Z.of_nat (length stem) + 4) 4); [| lia]);
      rewrite !Hn by lia; reflexivity.
Qed.

Lemma has_32x_extension_iff_witness :
  has_32x_extension [x67; x61; x6d; x65; x2e; x33; x32; x58] = true <->
  exists stem,
    [x67; x61; x6d; x65; x2e; x33; x32; x58]
      = stem ++ [x2e; x33; x32; x78] \/
    [x67; x61; x6d; x65; x2e; x33; x32; x58]
      = stem ++ [x2e; x33; x32; x58].
Proof.
  apply (has_32x_extension_iff [x67; x61; x6d; x65; x2e; x33; x32; x58]).
  vm_compute. discriminate.
Defined.

(** ** More on the stream callbacks *)

Lemma in_bounds_spec (off n : Z) (b : buffer) :
  in_bounds off n b = true -> 0 <= off /\ 0 <= n /\ off + n <= blen b.
Proof.
  unfold in_bounds. rewrite !andb_true_iff, !Z.leb_le. tauto.
Qed.

(** What a [memcpy] that returned has done. *)
Lemma memcpy_inv (dst : buffer) (doff : Z) (src : buffer) (soff n : Z)
    (d : buffer) :
  memcpy dst doff src soff n = Ok d ->
  0 <= doff /\ 0 <= soff /\ 0 <= n /\
  doff + n <= blen dst /\ soff + n <= blen src /\
  d = firstn (Z.to_nat doff) dst
      ++ firstn (Z.to_nat n) (skipn (Z.to_nat soff) src)
      ++ skipn (Z.to_nat (doff + n)) dst.
Proof.
  unfold memcpy.
  destruct (in_bounds soff n src) eqn:Es; [| discriminate].
  destruct (in_bounds doff n dst) eqn:Ed; [| discriminate].
  simpl. intros H. inversion H.
  apply in_bounds_spec in Es. apply in_bounds_spec in Ed.
  repeat split; lia.
Qed.

Section Splice.

Variables (dst src : buffer) (doff soff n : nat).
Hypothesis Hdst : (doff + n <= length dst)%nat.
Hypothesis Hsrc : (soff + n <= length src)%nat.

Let spliced : buffer :=
  firstn doff dst ++ firstn n (skipn soff src) ++ skipn (doff + n) dst.

Lemma splice_length : length spliced = length dst.
Proof.
  unfold spliced.
  rewrite !length_app, !length_firstn, !length_skipn. lia.
Qed.

Lemma splice_before : firstn doff spliced = firstn doff dst.
Proof.
  unfold spliced. rewrite firstn_app, length_firstn.
  replace (doff - Nat.min doff (length dst))%nat with 0%nat by lia.
  rewrite firstn_firstn, Nat.min_id. simpl. apply app_nil_r.
Qed.

Lemma splice_window : firstn n (skipn doff spliced) = firstn n (skipn soff src).
Proof.
  unfold spliced. rewrite skipn_app, length_firstn.
  replace (doff - Nat.min doff (length dst))%nat with 0%nat by lia.
  rewrite skipn_all2 by (rewrite length_firstn; lia).
  simpl. rewrite firstn_app, length_firstn, length_skipn.
  replace (n - Nat.min n (length src - soff))%nat with 0%nat by lia.
  rewrite firstn_firstn, Nat.min_id. simpl. apply app_nil_r.
Qed.

Lemma splice_after : skipn (doff + n) spliced = skipn (doff + n) dst.
Proof.
  unfold spliced. rewrite skipn_app, length_firstn.
  rewrite skipn_all2 by (rewrite length_firstn; lia).
  simpl. rewrite skipn_app, length_firstn, length_skipn.
  rewrite skipn_all2 by (rewrite length_firstn, length_skipn; lia).
  simpl.
  replace (doff + n - Nat.min doff (length dst)
           - Nat.min n (length src - soff))%nat with 0%nat by lia.
  reflexivity.
Qed.

End Splice.

(** X5.  On a stream whose cursor is inside its capacity and whose capacity
    is inside the buffer, a Read of n bytes returns min(n, capacity -
    cursor), copies that many bytes from the cursor to the start of the
    destination, leaves the rest of the destination alone and advances the
    cursor by the same amount; it never faults. *)
Theorem read_returns_min (p src : buffer) (esize nmemb : Z)
    (ctx : state_context) (n r : Z) :
  load_buf ctx = Some src ->
  0 <= pos ctx <= size ctx ->
  size ctx <= blen src ->
  n = to_size_t (esize * nmemb) ->
  n <= blen p ->
  blen p + blen src < SIZE_MOD ->
  r = Z.min n (size ctx - pos ctx) ->
  state_read_cb p esize nmemb ctx
  = Ok (r,
        firstn (Z.to_nat r) (skipn (Z.to_nat (pos ctx)) src)
        ++ skipn (Z.to_nat r) p,
        set_pos ctx (pos ctx + r)).
Proof.
  intros Hsrc Hpos Hcap Hn Hp Hspace Hr.
  pose proof (to_size_t_range (esize * nmemb)) as Hnr. rewrite <- Hn in Hnr.
  pose proof (blen_nonneg p) as Hp0.
  unfold state_read_cb. rewrite <- Hn.
  rewrite (to_size_t_small (pos ctx + n)) by lia.
  destruct (Z.gtb_spec (pos ctx + n) (size ctx)) as [Hgt | Hle].
  - assert (Hrk : r = size ctx - pos ctx) by lia.
    rewrite (to_size_t_small (size ctx - pos ctx)) by lia.
    rewrite to_int_small by (unfold INT_MAX, SIZE_MOD in *; lia).
    rewrite <- Hrk.
    destruct (Z.leb_spec r 0) as [Hz | Hnz].
    + assert (r = 0) by lia. subst r. rewrite H.
      simpl. rewrite Z.add_0_r, set_pos_same. reflexivity.
    + rewrite Hsrc. cbn [deref bind]. rewrite memcpy_ok by lia.
      cbn [bind]. rewrite ?to_size_t_small by lia. reflexivity.
  - assert (Hrn : r = n) by lia. rewrite <- Hrn.
    rewrite Hsrc. cbn [deref bind]. rewrite memcpy_ok by lia.
    cbn [bind]. rewrite ?to_size_t_small by lia. reflexivity.
Qed.

Lemma read_returns_min_witness :
  state_read_cb (repeat x00 8) 1 8 (set_pos sample_stream 12)
  = Ok (4,
        firstn (Z.to_nat 4) (skipn (Z.to_nat 12) sample_bytes)
        ++ skipn (Z.to_nat 4) (repeat x00 8),
        set_pos (set_pos sample_stream 12) (12 + 4)).
Proof.
  apply (read_returns_min (repeat x00 8) sample_bytes 1 8
           (set_pos sample_stream 12) 8 4);
    try reflexivity; vm_compute; try split; congruence.
Defined.

(** The footprint of a Write that returned. *)
Lemma state_write_cb_window (p buf : buffer) (esize nmemb : Z)
    (ctx ctx' : state_context) (r : Z) :
  save_buf ctx = Some buf ->
  state_write_cb p esize nmemb ctx = Ok (r, ctx') ->
  exists buf',
    save_buf ctx' = Some buf' /\
    length buf' = length buf /\
    firstn (Z.to_nat (pos ctx)) buf' = firstn (Z.to_nat (pos ctx)) buf /\
    firstn (Z.to_nat r) (skipn (Z.to_nat (pos ctx)) buf')
      = firstn (Z.to_nat r) p /\
    skipn (Z.to_nat (pos ctx + r)) buf' = skipn (Z.to_nat (pos ctx + r)) buf /\
    0 <= r /\ size ctx' = size ctx /\ load_buf ctx' = load_buf ctx.
Proof.
  intros Hbuf Hw. unfold state_write_cb in Hw.
  assert (Hcopy : forall b,
            (dst <- deref (save_buf ctx) ;;
             dst' <- memcpy dst (pos ctx) p 0 b ;;
             Ok (b, set_pos (set_save_buf ctx dst')
                      (to_size_t (pos ctx + b)))) = Ok (r, ctx') ->
            exists buf',
              save_buf ctx' = Some buf' /\
              length buf' = length buf /\
              firstn (Z.to_nat (pos ctx)) buf'
                = firstn (Z.to_nat (pos ctx)) buf /\
              firstn (Z.to_nat r) (skipn (Z.to_nat (pos ctx)) buf')
                = firstn (Z.to_nat r) p /\
              skipn (Z.to_nat (pos ctx + r)) buf'
                = skipn (Z.to_nat (pos ctx + r)) buf /\
              0 <= r /\ size ctx' = size ctx /\ load_buf ctx' = load_buf ctx).
  { intros b H. rewrite Hbuf in H. simpl in H.
    destruct (memcpy buf (pos ctx) p 0 b) as [d |] eqn:Em; [| discriminate].
    simpl in H. inversion H. subst b ctx'. clear H.
    apply memcpy_inv in Em.
    destruct Em as (Hd0 & _ & Hr0 & Hdl & Hsl & Hd).
    unfold blen in *. exists d. simpl.
    split; [reflexivity |].
    assert (Hdn : (Z.to_nat (pos ctx) + Z.to_nat r <= length buf)%nat) by lia.
    assert (Hsn : (0 + Z.to_nat r <= length p)%nat) by lia.
    replace (Z.to_nat (pos ctx + r))
      with (Z.to_nat (pos ctx) + Z.to_nat r)%nat in * by lia.
    change (Z.to_nat 0) with 0%nat in Hd. subst d.
    split; [apply splice_length; assumption |].
    split; [apply splice_before; assumption |].
    split; [rewrite splice_window by assumption; reflexivity |].
    split; [apply splice_after; assumption |].
    auto. }
  destruct (to_size_t (pos ctx + to_size_t (esize * nmemb)) >? size ctx).
  - destruct (to_int (to_size_t (size ctx - pos ctx)) <=? 0).
    + inversion Hw. subst r ctx'. exists buf.
      rewrite Z.add_0_r. repeat split; auto. lia.
    + apply Hcopy in Hw. exact Hw.
  - apply Hcopy in Hw. exact Hw.
Qed.

(** X6.  A Write that returns r has changed nothing but r bytes of the
    backing buffer starting at the cursor: the buffer keeps its length, the
    bytes before the cursor and from cursor + r on are the old ones, and the
    r bytes in between are the first r bytes of the source. *)
Theorem write_touches_only_its_window (p buf : buffer) (esize nmemb : Z)
    (ctx ctx' : state_context) (r : Z) :
  save_buf ctx = Some buf ->
  state_write_cb p esize nmemb ctx = Ok (r, ctx') ->
  exists buf',
    save_buf ctx' = Some buf' /\
    length buf' = length buf /\
    firstn (Z.to_nat (pos ctx)) buf' = firstn (Z.to_nat (pos ctx)) buf /\
    firstn (Z.to_nat r) (skipn (Z.to_nat (pos ctx)) buf')
      = firstn (Z.to_nat r) p /\
    skipn (Z.to_nat (pos ctx + r)) buf' = skipn (Z.to_nat (pos ctx + r)) buf /\
    0 <= r /\ size ctx' = size ctx /\ load_buf ctx' = load_buf ctx.
Proof. apply state_write_cb_window. Qed.

Lemma write_touches_only_its_window_witness :
  exists buf',
    save_buf (set_pos (set_save_buf (set_pos sample_stream 4)
                         (firstn (Z.to_nat 4) sample_bytes
                          ++ [x01; x02; x03]
                          ++ skipn (Z.to_nat (4 + 3)) sample_bytes)) 7)
      = Some buf' /\
    length buf' = length sample_bytes /\
    firstn (Z.to_nat 4) buf' = firstn (Z.to_nat 4) sample_bytes /\
    firstn (Z.to_nat 3) (skipn (Z.to_nat 4) buf')
      = firstn (Z.to_nat 3) [x01; x02; x03] /\
    skipn (Z.to_nat (4 + 3)) buf' = skipn (Z.to_nat (4 + 3)) sample_bytes /\
    0 <= 3 /\ 16 = 16 /\ Some sample_bytes = Some sample_bytes.
Proof.
  apply (write_touches_only_its_window [x01; x02; x03] sample_bytes 1 3
           (set_pos sample_stream 4)).
  - reflexivity.
  - reflexivity.
Defined.

(** X7.  What a Write put into the buffer is what a Read gets back: after a
    Write that returned r > 0, a Read of r bytes at the same cursor, on a
    stream over the written buffer whose capacity covers them, returns r
    and delivers the first r bytes of the written source. *)
Theorem write_then_read_round_trip (p q : buffer) (esize nmemb : Z)
    (ctx ctx' rd : state_context) (r : Z) :
  state_write_cb p esize nmemb ctx = Ok (r, ctx') ->
  0 < r ->
  load_buf rd = save_buf ctx' ->
  pos rd = pos ctx ->
  pos ctx + r <= size rd < SIZE_MOD ->
  r <= blen q ->
  state_read_cb q 1 r rd
  = Ok (r, firstn (Z.to_nat r) p ++ skipn (Z.to_nat r) q,
        set_pos rd (pos ctx + r)).
Proof.
  intros Hw Hr Hload Hpos Hsize Hq.
  assert (Hsome : exists buf, save_buf ctx = Some buf).
  { unfold state_write_cb in Hw.
    destruct (save_buf ctx) as [b |]; [eauto |].
    destruct (_ >? _); [destruct (_ <=? _) |]; simpl in Hw;
      try discriminate.
    inversion Hw. lia. }
  destruct Hsome as [buf Hbuf].
  assert (Hin : 0 <= pos ctx /\ pos ctx + r <= blen buf).
  { unfold state_write_cb in Hw. rewrite Hbuf in Hw.
    destruct (_ >? _); [destruct (_ <=? _) |]; simpl in Hw;
      try (inversion Hw; lia);
      match type of Hw with
      | context [memcpy ?a ?b ?c ?d ?e] =>
          destruct (memcpy a b c d e) eqn:Em; [| discriminate]
      end; simpl in Hw; inversion Hw; subst;
      apply memcpy_inv in Em; lia. }
  destruct (state_write_cb_window p buf esize nmemb ctx ctx' r
              Hbuf Hw) as (buf' & Hb' & Hlen & _ & Hwin & _).
  unfold state_read_cb. rewrite Z.mul_1_l.
  rewrite (to_size_t_small r) by lia.
  rewrite Hpos. rewrite (to_size_t_small (pos ctx + r)) by lia.
  destruct (Z.gtb_spec (pos ctx + r) (size rd)) as [Hgt | _]; [lia |].
  rewrite Hload, Hb'. simpl.
  rewrite memcpy_ok by (unfold blen in *; lia).
  simpl. rewrite Hwin. reflexivity.
Qed.

Lemma write_then_read_round_trip_witness :
  state_read_cb (repeat x00 4) 1 3
    {| load_buf := Some (firstn (Z.to_nat 4) sample_bytes
                         ++ [x01; x02; x03]
                         ++ skipn (Z.to_nat (4 + 3)) sample_bytes);
       save_buf := None; size := 16; pos := 4 |}
  = Ok (3, firstn (Z.to_nat 3) [x01; x02; x03]
           ++ skipn (Z.to_nat 3) (repeat x00 4),
        set_pos
          {| load_buf := Some (firstn (Z.to_nat 4) sample_bytes
                               ++ [x01; x02; x03]
                               ++ skipn (Z.to_nat (4 + 3)) sample_bytes);
             save_buf := None; size := 16; pos := 4 |}
          (4 + 3)).
Proof.
  apply (write_then_read_round_trip [x01; x02; x03] (repeat x00 4) 1 3
           (set_pos sample_stream 4)
           (set_pos (set_save_buf (set_pos sample_stream 4)
                       (firstn (Z.to_nat 4) sample_bytes
                        ++ [x01; x02; x03]
                        ++ skipn (Z.to_nat (4 + 3)) sample_bytes)) 7)).
  - reflexivity.
  - lia.
  - reflexivity.
  - reflexivity.
  - simpl. unfold SIZE_MOD. lia.
  - vm_compute. discriminate.
Defined.

(** X8.  Seeks compose by adding offsets modulo 2^32: a relative seek after
    any seek lands where a single seek by the sum would, two relative seeks
    equal one by the sum, and a relative seek by 0 leaves a stream with a
    [size_t] cursor as it is and returns the cursor as an [int]. *)
Theorem seeks_compose (a b whence : Z) (ctx : state_context) :
  0 <= pos ctx < SIZE_MOD ->
  (whence = SEEK_SET \/ whence = SEEK_CUR \/ whence = SEEK_END) ->
  snd (state_seek_cb b SEEK_CUR (snd (state_seek_cb a whence ctx)))
    = snd (state_seek_cb (a + b) whence ctx) /\
  state_seek_cb 0 SEEK_CUR ctx = (to_int (pos ctx), ctx).
Proof.
  intros Hp Hw. split.
  - assert (Hadd : forall x, to_size_t (to_size_t x + b) = to_size_t (x + b)).
    { intros x. unfold to_size_t. apply Zplus_mod_idemp_l. }
    destruct Hw as [Hw | [Hw | Hw]]; subst whence;
      unfold state_seek_cb; simpl; unfold set_pos; simpl;
      rewrite Hadd; f_equal; f_equal; lia.
  - unfold state_seek_cb. simpl.
    rewrite Z.add_0_r, to_size_t_small by assumption.
    rewrite set_pos_same. reflexivity.
Qed.

Lemma seeks_compose_witness :
  snd (state_seek_cb 7 SEEK_CUR (snd (state_seek_cb (-3) SEEK_END
                                        sample_stream)))
    = snd (state_seek_cb (-3 + 7) SEEK_END sample_stream) /\
  state_seek_cb 0 SEEK_CUR sample_stream
    = (to_int (pos sample_stream), sample_stream).
Proof.
  apply (seeks_compose (-3) 7 SEEK_END sample_stream).
  - simpl. unfold SIZE_MOD. lia.
  - right. right. reflexivity.
Defined.

(** ** What a save can and cannot change *)

Lemma state_write_cb_shape (p : buffer) (esize nmemb : Z)
    (ctx ctx' : state_context) (r : Z) :
  state_write_cb p esize nmemb ctx = Ok (r, ctx') ->
  size ctx' = size ctx /\ load_buf ctx' = load_buf ctx /\
  match save_buf ctx with
  | Some b => exists b', save_buf ctx' = Some b' /\ length b' = length b
  | None => save_buf ctx' = None
  end.
Proof.
  intros Hw. destruct (save_buf ctx) as [b |] eqn:Hb.
  - destruct (state_write_cb_window p b esize nmemb ctx ctx' r Hb Hw)
      as (b' & H1 & H2 & _ & _ & _ & _ & H3 & H4).
    eauto.
  - unfold state_write_cb in Hw. rewrite Hb in Hw.
    destruct (_ >? _); [destruct (_ <=? _) |]; simpl in Hw;
      try discriminate.
    inversion Hw. subst. auto.
Qed.

Lemma state_seek_cb_shape (offset whence : Z) (ctx : state_context) :
  size (snd (state_seek_cb offset whence ctx)) = size ctx /\
  load_buf (snd (state_seek_cb offset whence ctx)) = load_buf ctx /\
  save_buf (snd (state_seek_cb offset whence ctx)) = save_buf ctx.
Proof.
  unfold state_seek_cb. simpl.
  destruct (whence =? SEEK_SET); [auto |].
  destruct (whence =? SEEK_CUR); [auto |].
  destruct (whence =? SEEK_END); auto.
Qed.

(** A run of the serializer with the callbacks [pico_state_save] passes
    keeps the stream's capacity and the length of its buffer. *)
Lemma save_run_shape (prog : serializer) :
  forall (ctx ctx' : state_context) (status : Z),
    run_serializer prog None (Some state_write_cb) None (Some state_seek_cb)
      ctx = Ok (status, ctx') ->
    size ctx' = size ctx /\ load_buf ctx' = load_buf ctx /\
    match save_buf ctx with
    | Some b => exists b', save_buf ctx' = Some b' /\ length b' = length b
    | None => save_buf ctx' = None
    end.
Proof.
  induction prog as [status0 | p esize nmemb k IH | p esize nmemb k IH
                     | k IH | offset whence k IH];
    intros ctx ctx' status Hrun;
    cbn [run_serializer call bind] in Hrun.
  - inversion Hrun. subst. destruct (save_buf ctx'); eauto.
  - discriminate.
  - destruct (state_write_cb p esize nmemb ctx) as [[r c] |] eqn:Ew;
      cbn [bind] in Hrun; [| discriminate].
    apply state_write_cb_shape in Ew. destruct Ew as (E1 & E2 & E3).
    apply IH in Hrun. destruct Hrun as (R1 & R2 & R3).
    rewrite R1, R2, E1, E2. split; [reflexivity |]. split; [reflexivity |].
    destruct (save_buf ctx) as [b |].
    + destruct E3 as (b1 & Eb1 & El1). rewrite Eb1 in R3.
      destruct R3 as (b2 & Eb2 & El2). exists b2. split; [assumption | lia].
    + rewrite E3 in R3. assumption.
  - discriminate.
  - destruct (state_seek_cb offset whence ctx) as [r c] eqn:Es.
    pose proof (state_seek_cb_shape offset whence ctx) as Hs.
    rewrite Es in Hs. simpl in Hs. destruct Hs as (E1 & E2 & E3).
    apply IH in Hrun. destruct Hrun as (R1 & R2 & R3).
    rewrite R1, R2, E1, E2. rewrite E3 in R3. auto.
Qed.

(** X9.  Whatever the serializer does, a [pico_state_save] that returns has
    returned 0 or 1 and has touched only the contents of the state buffer,
    the logical size and the log: the state buffer is still allocated with
    the same length, and the pixel buffer, the sample buffer, the input
    state, the video geometry and the lifecycle flags are as before. *)
Theorem pico_state_save_frame (core : Z -> serializer)
    (malloc : Z -> option buffer) (st st' : web_state) (b : buffer) (r : Z) :
  state_buffer st = Some b ->
  pico_state_save core malloc st = Ok (r, st') ->
  (r = 0 \/ r = 1) /\
  (exists b', state_buffer st' = Some b' /\ length b' = length b) /\
  vout_buf st' = vout_buf st /\
  snd_buffer st' = snd_buffer st /\
  input_state st' = input_state st /\
  (vout_width st', vout_height st', vout_offset st')
    = (vout_width st, vout_height st, vout_offset st) /\
  (emu_initialized st', game_loaded st')
    = (emu_initialized st, game_loaded st).
Proof.
  intros Hb Hs. unfold pico_state_save in Hs.
  destruct (game_loaded st =? 0).
  - inversion Hs. subst. repeat split; eauto.
  - rewrite Hb in Hs. cbv zeta in Hs. unfold PicoStateFP in Hs.
    match type of Hs with
    | context [run_serializer ?a ?b ?c ?d ?e ?f] =>
        destruct (run_serializer a b c d e f) as [[status ctx'] |] eqn:Er
    end; [| discriminate].
    apply save_run_shape in Er. destruct Er as (_ & _ & E3).
    web_simpl. rewrite Hb in E3. destruct E3 as (b' & Eb' & El').
    cbn [bind] in Hs.
    destruct (negb (status =? 0)); inversion Hs; subst; web_simpl;
      rewrite Eb'; repeat split; eauto.
Qed.

Lemma pico_state_save_frame_witness :
  (1 = 0 \/ 1 = 1) /\
  (exists b',
     state_buffer
       (set_state_size
          (set_state_buffer (emit (running_state 32) (Ev_PicoStateFP 1))
             (Some ([x01; x02; x03; x04; x05; x06] ++ repeat x00 26))) 6)
       = Some b' /\
     length b' = length (repeat x00 32)) /\
  vout_buf (running_state 32) = vout_buf (running_state 32) /\
  snd_buffer (running_state 32) = snd_buffer (running_state 32) /\
  [0; 0] = input_state (running_state 32) /\
  (VOUT_MAX_WIDTH, VOUT_MAX_HEIGHT, 0)
    = (vout_width (running_state 32), vout_height (running_state 32),
       vout_offset (running_state 32)) /\
  (1, 1) = (emu_initialized (running_state 32),
            game_loaded (running_state 32)).
Proof.
  apply (pico_state_save_frame sample_save sample_malloc (running_state 32)
           (set_state_size
              (set_state_buffer (emit (running_state 32) (Ev_PicoStateFP 1))
                 (Some ([x01; x02; x03; x04; x05; x06] ++ repeat x00 26))) 6)
           (repeat x00 32) 1).
  - reflexivity.
  - reflexivity.
Defined.

(** A serializer program that only writes keeps the cursor inside the
    stream. *)
Lemma only_writes_run_stream_ok (prog : serializer) :
  only_writes prog ->
  forall (ctx ctx' : state_context) (status : Z),
    stream_ok ctx ->
    run_serializer prog None (Some state_write_cb) None (Some state_seek_cb)
      ctx = Ok (status, ctx') ->
    stream_ok ctx'.
Proof.
  induction 1 as [status0 | p esize nmemb k Hk IH];
    intros ctx ctx' status Hok Hrun; simpl in Hrun.
  - inversion Hrun. subst. assumption.
  - destruct (state_write_cb p esize nmemb ctx) as [[r c] |] eqn:Ew;
      simpl in Hrun; [| discriminate].
    apply (IH r c ctx' status); [| assumption].
    apply (transfer_keeps_stream_ok (OpWrite p esize nmemb) ctx c);
      [reflexivity | assumption |].
    simpl. rewrite Ew. reflexivity.
Qed.

(** X10.  When the serializer only writes (it never seeks), a successful
    [pico_state_save] leaves a logical size between 0 and STATE_MAX_SIZE,
    and [pico_get_state_size] reports exactly that size. *)
Theorem write_only_save_size_bounded (core : Z -> serializer)
    (malloc : Z -> option buffer) (st st' : web_state) :
  only_writes (core 1) ->
  pico_state_save core malloc st = Ok (1, st') ->
  0 <= state_size st' <= STATE_MAX_SIZE /\
  pico_get_state_size st' = state_size st'.
Proof.
  intros Hfree Hs.
  assert (Hsz : 0 <= state_size st' <= STATE_MAX_SIZE).
  { unfold pico_state_save in Hs.
    destruct (game_loaded st =? 0); [inversion Hs |].
    match type of Hs with
    | context [match ?a with Some _ => _ | None => _ end] =>
        destruct a as [st0 |] eqn:Ea
    end; [| inversion Hs].
    cbv zeta in Hs. unfold PicoStateFP in Hs.
    match type of Hs with
    | context [run_serializer ?a ?b ?c ?d ?e ?f] =>
        destruct (run_serializer a b c d e f) as [[status ctx'] |] eqn:Er
    end; [| discriminate].
    pose proof (save_run_shape _ _ _ _ Er) as (Hsize & _ & _).
    assert (Hok : stream_ok ctx').
    { apply (only_writes_run_stream_ok _ Hfree _ _ _) in Er;
        [assumption |].
      unfold stream_ok, cursor_in_capacity. simpl.
      unfold STATE_MAX_SIZE, SIZE_MOD. lia. }
    destruct Hok as [[Hp0 Hp1] _]. simpl in Hsize.
    cbn [bind] in Hs.
    destruct (negb (status =? 0)); inversion Hs; subst st'; web_simpl.
    lia. }
  split; [assumption |].
  unfold pico_get_state_size. apply to_int_small.
  unfold STATE_MAX_SIZE, INT_MAX in *. lia.
Qed.

Lemma write_only_save_size_bounded_witness :
  0 <= state_size
         (set_state_size
            (set_state_buffer (emit (running_state 32) (Ev_PicoStateFP 1))
               (Some ([x01; x02; x03; x04; x05; x06] ++ repeat x00 26))) 6)
    <= STATE_MAX_SIZE /\
  pico_get_state_size
    (set_state_size
       (set_state_buffer (emit (running_state 32) (Ev_PicoStateFP 1))
          (Some ([x01; x02; x03; x04; x05; x06] ++ repeat x00 26))) 6)
  = state_size
      (set_state_size
         (set_state_buffer (emit (running_state 32) (Ev_PicoStateFP 1))
            (Some ([x01; x02; x03; x04; x05; x06] ++ repeat x00 26))) 6).
Proof.
  apply (write_only_save_size_bounded sample_save sample_malloc
           (running_state 32)).
  - unfold sample_save. constructor. intros r. constructor.
  - reflexivity.
Defined.

(** X11.  Declaring a blob size and asking for it back is a round trip for
    every [int]: once the state buffer exists, [pico_get_state_size] after
    [pico_get_state_load_buffer(n)] returns n, and [pico_state_exists] is 1
    exactly when n is not 0, negative n included. *)
Theorem declared_size_round_trip (malloc : Z -> option buffer) (n : Z)
    (st : web_state) :
  - 2 ^ 31 <= n <= INT_MAX ->
  fst (pico_get_state_load_buffer malloc n st) <> None ->
  pico_get_state_size (snd (pico_get_state_load_buffer malloc n st)) = n /\
  pico_state_exists (snd (pico_get_state_load_buffer malloc n st))
    = (if n =? 0 then 0 else 1).
Proof.
  intros Hn Hptr.
  assert (Hback : to_int (to_size_t n) = n).
  { unfold to_int, to_size_t. rewrite Zplus_mod_idemp_l.
    fold (to_int n). now apply to_int_small. }
  assert (Hzero : (to_size_t n >? 0) = negb (n =? 0)).
  { pose proof (to_size_t_range n) as Hr.
    destruct (Z.eqb_spec n 0) as [-> | Hne]; [reflexivity |].
    destruct (Z.gtb_spec (to_size_t n) 0) as [_ | Hle]; [reflexivity |].
    assert (Hz : to_size_t n = 0) by lia.
    rewrite Hz in Hback. vm_compute in Hback. congruence. }
  unfold pico_get_state_load_buffer in *.
  destruct (state_buffer st) as [b |] eqn:Hb.
  - cbn [snd]. unfold pico_get_state_size, pico_state_exists. web_simpl.
    rewrite Hb, Hback, Hzero. split; [reflexivity |].
    destruct (n =? 0); reflexivity.
  - destruct (malloc STATE_MAX_SIZE) as [b |].
    + cbn [snd]. unfold pico_get_state_size, pico_state_exists. web_simpl.
      rewrite Hback, Hzero. split; [reflexivity |].
      destruct (n =? 0); reflexivity.
    + exfalso. apply Hptr. reflexivity.
Qed.

Lemma declared_size_round_trip_witness :
  pico_get_state_size
    (snd (pico_get_state_load_buffer sample_malloc (-1) (running_state 32)))
    = -1 /\
  pico_state_exists
    (snd (pico_get_state_load_buffer sample_malloc (-1) (running_state 32)))
    = (if -1 =? 0 then 0 else 1).
Proof.
  apply (declared_size_round_trip sample_malloc (-1) (running_state 32)).
  - unfold INT_MAX. lia.
  - vm_compute. discriminate.
Defined.

(** ** More on the audio flush *)

(** With a handler installed and a non-negative length, the flush hands
    over the heap's slots from [sndOut] on. *)
Lemma snd_write_packet (window : host_window) (HEAP16 : list Z)
    (sndOut len : Z) (st : web_state) :
  has_onAudioWrite window = true ->
  0 <= len <= INT_MAX ->
  snd_write window HEAP16 sndOut len st
  = Ok (emit st (Ev_onAudioWrite
          (map (fun i => HEAP16_get HEAP16 (Z.shiftr sndOut 1 + Z.of_nat i))
             (seq 0 (Z.to_nat (len / 4 * 2)))))).
Proof.
  intros Hreg Hl. unfold snd_write. rewrite Hreg.
  rewrite Z.quot_div_nonneg by lia.
  assert (Hq : 0 <= len / 4 <= INT_MAX).
  { split; [apply Z.div_pos; lia |].
    apply Z.le_trans with len; [| lia].
    apply Z.div_le_upper_bound; lia. }
  rewrite to_int_small by (unfold INT_MAX in *; lia).
  unfold Int16Array_new.
  destruct (Z.ltb_spec (len / 4 * 2) 0) as [Hneg | _]; [lia |].
  cbn [bind].
  pose proof (audio_copy_loop_fills HEAP16 sndOut (Z.to_nat (len / 4 * 2))
                [] (repeat 0 (Z.to_nat (len / 4 * 2)))
                (repeat_length _ _)) as Hfill.
  simpl in Hfill. rewrite Hfill. reflexivity.
Qed.

Lemma map_seq_firstn (f : nat -> Z) (buf : list Z) (m : nat) :
  (m <= length buf)%nat ->
  (forall i, (i < m)%nat -> f i = nth i buf 0) ->
  map f (seq 0 m) = firstn m buf.
Proof.
  intros Hm Hf.
  apply (nth_ext _ _ (f 0%nat) 0).
  - rewrite length_map, length_seq, length_firstn. lia.
  - intros n Hn. rewrite length_map, length_seq in Hn.
    rewrite map_nth, seq_nth by assumption. simpl.
    rewrite nth_firstn.
    destruct (Nat.ltb_spec n m); [apply Hf; assumption | lia].
Qed.

(** X12.  When the heap holds the sample buffer at [sndOut] and the length
    asks for no more than the buffer has, the packet is the first
    len / 4 * 2 samples of [snd_buffer], and the statics stay as they were
    but for the log. *)
Theorem snd_write_delivers_buffer_prefix (window : host_window)
    (HEAP16 : list Z) (sndOut len : Z) (st : web_state) :
  has_onAudioWrite window = true ->
  0 <= len <= INT_MAX ->
  len / 4 * 2 <= Z.of_nat (length (snd_buffer st)) ->
  heap_holds HEAP16 sndOut (snd_buffer st) ->
  snd_write window HEAP16 sndOut len st
  = Ok (emit st (Ev_onAudioWrite
          (firstn (Z.to_nat (len / 4 * 2)) (snd_buffer st)))).
Proof.
  intros Hreg Hlen Hfit Hheap.
  rewrite snd_write_packet by assumption.
  rewrite (map_seq_firstn _ (snd_buffer st)); [reflexivity | lia |].
  intros i Hi. apply Hheap. lia.
Qed.

Lemma snd_write_delivers_buffer_prefix_witness :
  snd_write page_with_handlers
    (repeat 7 4 ++ snd_buffer sample_audio_state) 8 16 sample_audio_state
  = Ok (emit sample_audio_state
          (Ev_onAudioWrite
             (firstn (Z.to_nat (16 / 4 * 2))
                (snd_buffer sample_audio_state)))).
Proof.
  apply (snd_write_delivers_buffer_prefix page_with_handlers
           (repeat 7 4 ++ snd_buffer sample_audio_state) 8 16
           sample_audio_state).
  - reflexivity.
  - unfold INT_MAX. lia.
  - vm_compute. discriminate.
  - intros i Hi. simpl in Hi.
    do 12 (destruct i as [| i]; [reflexivity |]). lia.
Defined.

(** X13.  With a handler installed, [snd_write] ends in a RangeError exactly
    when len <= -4; for every other [int] it delivers one packet of
    max(0, len / 4) * 2 values, so a length between -3 and 3 delivers an
    empty packet. *)
Theorem snd_write_fails_only_below_minus_three (window : host_window)
    (HEAP16 : list Z) (sndOut len : Z) (st : web_state) :
  has_onAudioWrite window = true ->
  - 2 ^ 31 <= len <= INT_MAX ->
  if len <=? -4
  then snd_write window HEAP16 sndOut len st
       = Fault (JsRangeError (Z.quot len 4 * 2))
  else exists packet,
         snd_write window HEAP16 sndOut len st
           = Ok (emit st (Ev_onAudioWrite packet)) /\
         Z.of_nat (length packet) = Z.max 0 (Z.quot len 4) * 2.
Proof.
  intros Hreg Hlen.
  destruct (Z.leb_spec len (-4)) as [Hneg | Hok].
  - unfold snd_write. rewrite Hreg.
    assert (Hq : - 2 ^ 31 <= Z.quot len 4 <= -1).
    { rewrite <- (Z.opp_involutive len), Z.quot_opp_l by lia.
      rewrite Z.quot_div_nonneg by lia.
      assert (1 <= - len / 4) by (apply Z.div_le_lower_bound; lia).
      assert (- len / 4 <= - len) by (apply Z.div_le_upper_bound; lia).
      lia. }
    rewrite to_int_small by (unfold INT_MAX; lia).
    unfold Int16Array_new.
    destruct (Z.ltb_spec (Z.quot len 4 * 2) 0); [reflexivity | lia].
  - destruct (Z.le_gt_cases 0 len) as [Hpos | Hsmall].
    + eexists. split; [apply snd_write_packet; [assumption | lia] |].
      rewrite length_map, length_seq.
      rewrite Z.quot_div_nonneg by lia.
      assert (0 <= len / 4) by (apply Z.div_pos; lia). lia.
    + assert (Hq : Z.quot len 4 = 0)
        by (apply Z.quot_small_iff; lia).
      unfold snd_write. rewrite Hreg, Hq.
      exists []. split; reflexivity.
Qed.

Lemma snd_write_fails_only_below_minus_three_witness :
  if -3 <=? -4
  then snd_write page_with_handlers sample_heap 8 (-3) initial_state
       = Fault (JsRangeError (Z.quot (-3) 4 * 2))
  else exists packet,
         snd_write page_with_handlers sample_heap 8 (-3) initial_state
           = Ok (emit initial_state (Ev_onAudioWrite packet)) /\
         Z.of_nat (length packet) = Z.max 0 (Z.quot (-3) 4) * 2.
Proof.
  apply (snd_write_fails_only_below_minus_three page_with_handlers
           sample_heap 8 (-3) initial_state).
  - reflexivity.
  - unfold INT_MAX. lia.
Defined.

(** ** More on video mode changes *)

(** X14.  A mode change zeroes the whole 320 x 240 pixel buffer, whatever
    the mode reported and whatever the buffer held. *)
Theorem video_mode_change_zeroes_buffer (window : host_window)
    (start_line line_count start_col col_count : Z) (st : web_state) :
  length (vout_buf st) = Z.to_nat (VOUT_MAX_WIDTH * VOUT_MAX_HEIGHT) ->
  vout_buf (emu_video_mode_change window start_line line_count start_col
              col_count st)
  = repeat 0 (Z.to_nat (VOUT_MAX_WIDTH * VOUT_MAX_HEIGHT)).
Proof.
  intros Hlen.
  destruct (emu_video_mode_change_result window start_line line_count
              start_col col_count st) as (_ & _ & _ & Hb & _).
  rewrite Hb. unfold memset_zero. rewrite Hlen.
  replace (Z.to_nat (VOUT_MAX_WIDTH * VOUT_MAX_HEIGHT * 2 / 2))
    with (Z.to_nat (VOUT_MAX_WIDTH * VOUT_MAX_HEIGHT)) by reflexivity.
  rewrite Nat.min_id, skipn_all2 by lia.
  apply app_nil_r.
Qed.

Lemma video_mode_change_zeroes_buffer_witness :
  vout_buf (emu_video_mode_change page_with_handlers 8 224 0 320
              (set_vout_buf initial_state
                 (repeat 31 (Z.to_nat (VOUT_MAX_WIDTH * VOUT_MAX_HEIGHT)))))
  = repeat 0 (Z.to_nat (VOUT_MAX_WIDTH * VOUT_MAX_HEIGHT)).
Proof.
  apply (video_mode_change_zeroes_buffer page_with_handlers 8 224 0 320
           (set_vout_buf initial_state
              (repeat 31 (Z.to_nat (VOUT_MAX_WIDTH * VOUT_MAX_HEIGHT))))).
  cbn [vout_buf set_vout_buf]. apply repeat_length.
Defined.

(** X15.  [emu_32x_startup] after a mode change keeps the negotiated
    geometry: width, height, offset and the cached mode come out as the
    mode change left them, whether the cached mode is replayed or, because
    one of its fields is -1, the core is only pointed at the buffer again. *)
Theorem emu_32x_startup_keeps_geometry (window window' : host_window)
    (start_line line_count start_col col_count : Z) (st : web_state) :
  let st1 := emu_video_mode_change window start_line line_count start_col
               col_count st in
  let st2 := emu_32x_startup window' st1 in
  (vout_width st2, vout_height st2, vout_offset st2)
    = (vout_width st1, vout_height st1, vout_offset st1) /\
  (vm_current_start_line st2, vm_current_line_count st2,
   vm_current_start_col st2, vm_current_col_count st2)
    = (start_line, line_count, start_col, col_count).
Proof.
  cbv zeta.
  pose proof (video_mode_change_cache window start_line line_count
                start_col col_count st) as Hc.
  pose proof (emu_video_mode_change_result window start_line line_count
                start_col col_count st) as Hr.
  cbv zeta in Hc, Hr.
  destruct Hc as (C1 & C2 & C3 & C4). destruct Hr as (W & H & O & _).
  remember (emu_video_mode_change window start_line line_count start_col
              col_count st) as st1 eqn:Hst1.
  unfold emu_32x_startup. cbv zeta.
  cbn [emit vm_current_start_line vm_current_line_count
       vm_current_start_col vm_current_col_count vout_width].
  rewrite C1, C2, C3, C4.
  destruct (negb (start_line =? -1) && negb (line_count =? -1)
            && negb (start_col =? -1) && negb (col_count =? -1)).
  - pose proof (video_mode_change_cache window' start_line line_count
                  start_col col_count
                  (emit st1 (Ev_PicoDrawSetOutFormat PDF_RGB555 0))) as Hc'.
    pose proof (emu_video_mode_change_result window' start_line line_count
                  start_col col_count
                  (emit st1 (Ev_PicoDrawSetOutFormat PDF_RGB555 0))) as Hr'.
    cbv zeta in Hc', Hr'.
    destruct Hc' as (C1' & C2' & C3' & C4').
    destruct Hr' as (W' & H' & O' & _).
    rewrite W', H', O', C1', C2', C3', C4', W, H, O. split; reflexivity.
  - web_simpl. rewrite C1, C2, C3, C4. split; reflexivity.
Qed.

(** ** The lifecycle entry points *)

(** Reduce field reads of updated sessions and statics. *)
Ltac session_simpl :=
  cbn [web rom_data rom_size frame_count core_log
       set_web set_rom set_frame_count core_store
       vout_buf vout_width vout_height vout_offset
       vm_current_start_line vm_current_line_count
       vm_current_start_col vm_current_col_count
       snd_buffer input_state emu_initialized game_loaded
       state_buffer state_size trace
       set_vm_current set_vout_buf set_vout_width set_vout_height
       set_vout_offset set_input_state set_state_buffer set_state_size
       set_snd_buffer set_emu_initialized set_game_loaded emit] in *.

Lemma memset_zero_length (buf : list Z) (nbytes : Z) :
  length (memset_zero buf nbytes) = length buf.
Proof.
  unfold memset_zero. rewrite length_app, repeat_length, length_skipn. lia.
Qed.

Lemma typed_store_length (a : list Z) (i : nat) (v : Z) :
  length (typed_store a i v) = length a.
Proof.
  revert i. induction a as [| h a IH]; intros [| i]; simpl; auto.
Qed.

Lemma core_cannot_touch_refl (st : web_state) : core_cannot_touch st st.
Proof. unfold core_cannot_touch. repeat split. Qed.

Lemma core_cannot_touch_trans (a b c : web_state) :
  core_cannot_touch a b -> core_cannot_touch b c -> core_cannot_touch a c.
Proof.
  unfold core_cannot_touch.
  intros (A1 & A2 & A3 & A4 & A5 & A6 & A7) (B1 & B2 & B3 & B4 & B5 & B6 & B7).
  repeat split; congruence.
Qed.

Lemma emit_cannot_touch (st : web_state) (e : event) :
  core_cannot_touch st (emit st e).
Proof. unfold core_cannot_touch. repeat split. Qed.

Lemma emu_video_mode_change_cannot_touch (window : host_window)
    (start_line line_count start_col col_count : Z) (st : web_state) :
  core_cannot_touch st
    (emu_video_mode_change window start_line line_count start_col col_count
       st).
Proof.
  unfold core_cannot_touch, emu_video_mode_change,
    emu_video_mode_change_body.
  cbn [run_statements]. web_simpl.
  split_ifs; repeat split; try reflexivity; apply memset_zero_length.
Qed.

Lemma emu_32x_startup_cannot_touch (window : host_window) (st : web_state) :
  core_cannot_touch st (emu_32x_startup window st).
Proof.
  unfold emu_32x_startup. cbv zeta.
  match goal with
  | |- context [if ?c then _ else _] => destruct c
  end.
  - eapply core_cannot_touch_trans;
      [apply emit_cannot_touch | apply emu_video_mode_change_cannot_touch].
  - eapply core_cannot_touch_trans; apply emit_cannot_touch.
Qed.

Lemma snd_write_cannot_touch (window : host_window) (HEAP16 : list Z)
    (sndOut len : Z) (st st' : web_state) :
  snd_write window HEAP16 sndOut len st = Ok st' -> core_cannot_touch st st'.
Proof.
  unfold snd_write. destruct (has_onAudioWrite window).
  - destruct (Int16Array_new _); cbn [bind]; [| discriminate].
    intros H. inversion H. apply emit_cannot_touch.
  - intros H. inversion H. apply core_cannot_touch_refl.
Qed.

Lemma run_reaction_cannot_touch (window : host_window) (r : reaction)
    (st st' : web_state) :
  run_reaction window r st = Ok st' -> core_cannot_touch st st'.
Proof.
  destruct r; simpl.
  - intros H. inversion H. apply emu_video_mode_change_cannot_touch.
  - intros H. inversion H. apply emu_32x_startup_cannot_touch.
  - apply snd_write_cannot_touch.
  - unfold core_store16. destruct (i <? length (vout_buf st))%nat;
      cbn [bind]; [| discriminate].
    intros H. inversion H. unfold core_cannot_touch. web_simpl.
    repeat split. apply typed_store_length.
  - unfold core_store16. destruct (i <? length (snd_buffer st))%nat;
      cbn [bind]; [| discriminate].
    intros H. inversion H. unfold core_cannot_touch. session_simpl.
    repeat split. apply typed_store_length.
Qed.

Lemma run_reactions_cannot_touch (window : host_window)
    (rs : list reaction) (st st' : web_state) :
  run_reactions window rs st = Ok st' ->
  core_cannot_touch st st'.
Proof.
  revert st. induction rs as [| r rs IH]; intros st H; simpl in H.
  - inversion H. apply core_cannot_touch_refl.
  - destruct (run_reaction window r st) as [st1 |] eqn:E;
      cbn [bind] in H; [| discriminate].
    eapply core_cannot_touch_trans.
    + eapply run_reaction_cannot_touch. exact E.
    + apply IH. exact H.
Qed.

(** X16.  Whatever the core does while a call into it runs (mode changes,
    32X startup, audio flushes, stores to the pixel and sample buffers), if
    the call returns then the input state, the lifecycle flags, the state
    buffer and its logical size are as before, and the pixel and sample
    buffers have kept their sizes. *)
Theorem core_reactions_frame (window : host_window) (rs : list reaction)
    (st st' : web_state) :
  run_reactions window rs st = Ok st' ->
  core_cannot_touch st st'.
Proof. apply run_reactions_cannot_touch. Qed.

Lemma core_reactions_frame_witness :
  core_cannot_touch (set_input_state sample_audio_state [129; 0])
    (emit
       (set_snd_buffer (set_input_state sample_audio_state [129; 0])
          (typed_store (snd_buffer sample_audio_state) 0 100))
       (Ev_onAudioWrite [100; -10])).
Proof.
  apply (core_reactions_frame page_with_handlers
           [R_sample 0 100; R_snd_write [100; -10; 20; -20] 0 4]
           (set_input_state sample_audio_state [129; 0])).
  reflexivity.
Defined.

(** ** Calls into the core and the session invariant *)

Lemma core_invoke_spec (window : host_window) (cm : core_model)
    (c : core_call) (s s' : session) :
  core_invoke window cm c s = Ok s' ->
  core_cannot_touch (web s) (web s') /\
  rom_data s' = rom_data s /\ rom_size s' = rom_size s /\
  frame_count s' = frame_count s /\
  core_log s' = core_log s ++ [c].
Proof.
  unfold core_invoke. cbv zeta. session_simpl.
  destruct (run_reactions window (react cm (length (core_log s))) (web s))
    as [w |] eqn:E; cbn [bind]; [| discriminate].
  intros H. inversion H. session_simpl.
  apply run_reactions_cannot_touch in E. auto.
Qed.

Lemma statics_ok_touch (st st' : web_state) :
  statics_ok st -> core_cannot_touch st st' -> statics_ok st'.
Proof.
  unfold statics_ok, core_cannot_touch.
  intros (A1 & A2 & A3 & A4 & A5 & A6 & A7) (B1 & B2 & B3 & B4 & B5 & B6 & B7).
  rewrite B1, B2, B3, B4, B6, B7. auto 10.
Qed.

Lemma statics_ok_initialized (st : web_state) :
  statics_ok st -> statics_ok (set_emu_initialized st 1).
Proof.
  unfold statics_ok. session_simpl.
  intros (A1 & A2 & A3 & A4 & A5 & A6 & A7). auto 10.
Qed.

Lemma statics_ok_exited (st : web_state) :
  statics_ok st ->
  statics_ok (set_game_loaded (set_emu_initialized st 0) 0).
Proof.
  unfold statics_ok. session_simpl.
  intros (A1 & A2 & A3 & A4 & A5 & A6 & A7).
  repeat split; auto; try (intros; discriminate).
Qed.

Lemma statics_ok_unloaded (st : web_state) :
  statics_ok st -> statics_ok (set_game_loaded st 0).
Proof.
  unfold statics_ok. session_simpl.
  intros (A1 & A2 & A3 & A4 & A5 & A6 & A7).
  repeat split; auto; try (intros; discriminate).
Qed.

Lemma statics_ok_loaded (st : web_state) :
  statics_ok st -> emu_initialized st <> 0 ->
  statics_ok (set_game_loaded st 1).
Proof.
  unfold statics_ok. session_simpl.
  intros (A1 & A2 & A3 & A4 & A5 & A6 & A7) Hi.
  repeat split; auto; intros _; destruct A1; [contradiction | assumption].
Qed.

Lemma statics_ok_snd_cleared (st : web_state) (n : Z) :
  statics_ok st ->
  statics_ok (set_snd_buffer st (memset_zero (snd_buffer st) n)).
Proof.
  unfold statics_ok. session_simpl.
  intros (A1 & A2 & A3 & A4 & A5 & A6 & A7).
  rewrite memset_zero_length. auto 10.
Qed.

Lemma statics_ok_input (pad buttons : Z) (st st' : web_state) :
  statics_ok st -> pico_set_input pad buttons st = Ok st' -> statics_ok st'.
Proof.
  unfold statics_ok, pico_set_input, array_store. cbv zeta.
  intros (A1 & A2 & A3 & A4 & A5 & A6 & A7) H.
  destruct ((pad >=? 0) && (pad <? 2)).
  - destruct ((0 <=? pad) && (pad <? Z.of_nat (length (input_state st))));
      cbn [bind] in H; [| discriminate].
    inversion H. subst st'. session_simpl.
    rewrite typed_store_length. auto 10.
  - inversion H. subst st'. auto 10.
Qed.

Lemma statics_ok_declared (malloc : Z -> option buffer) (n : Z)
    (st : web_state) :
  malloc_exact malloc -> statics_ok st ->
  statics_ok (snd (pico_get_state_load_buffer malloc n st)).
Proof.
  unfold statics_ok, pico_get_state_load_buffer.
  intros Hm (A1 & A2 & A3 & A4 & A5 & A6 & A7).
  destruct (state_buffer st) as [b |] eqn:Hb.
  - cbn [snd]. session_simpl. rewrite Hb. auto 10.
  - destruct (malloc STATE_MAX_SIZE) as [b |] eqn:Ha; cbn [snd];
      session_simpl.
    + repeat split; auto. intros b0 H0. inversion H0. subst b0.
      apply (Hm _ _ Ha).
    + rewrite Hb. auto 10.
Qed.

Lemma statics_ok_saved (core : Z -> serializer) (malloc : Z -> option buffer)
    (st st' : web_state) (r : Z) :
  malloc_exact malloc -> statics_ok st ->
  pico_state_save core malloc st = Ok (r, st') ->
  statics_ok st'.
Proof.
  intros Hm Hok Hs. pose proof Hok as (A1 & A2 & A3 & A4 & A5 & A6 & A7).
  unfold pico_state_save in Hs.
  destruct (game_loaded st =? 0); [inversion Hs; subst; assumption |].
  assert (Hrun : forall st0,
            statics_ok st0 ->
            (exists b, state_buffer st0 = Some b) ->
            ('(ret, ctx') <- PicoStateFP core
                               {| load_buf := None;
                                  save_buf := state_buffer st0;
                                  size := STATE_MAX_SIZE; pos := 0 |}
                               1 None (Some state_write_cb) None
                               (Some state_seek_cb) ;;
             (if negb (ret =? 0)
              then Ok (0, set_state_buffer (emit st0 (Ev_PicoStateFP 1))
                            (save_buf ctx'))
              else Ok (1, set_state_size
                            (set_state_buffer
                               (emit st0 (Ev_PicoStateFP 1))
                               (save_buf ctx'))
                            (pos ctx')))) = Ok (r, st') ->
            statics_ok st').
  { intros st0 (B1 & B2 & B3 & B4 & B5 & B6 & B7) [b Hb] H.
    unfold PicoStateFP in H.
    match type of H with
    | context [run_serializer ?a ?b ?c ?d ?e ?f] =>
        destruct (run_serializer a b c d e f) as [[status ctx'] |] eqn:Er
    end; cbn [bind] in H; [| discriminate].
    apply save_run_shape in Er. destruct Er as (_ & _ & E3).
    session_simpl. rewrite Hb in E3. destruct E3 as (b' & Eb' & El').
    assert (Hlen : blen b' = STATE_MAX_SIZE)
      by (unfold blen; rewrite El'; apply (B7 _ Hb)).
    destruct (negb (status =? 0)); inversion H; subst st';
      unfold statics_ok; session_simpl; rewrite Eb';
      repeat split; auto; intros b0 H0; inversion H0; subst b0; exact Hlen. }
  destruct (state_buffer st) as [b |] eqn:Hb.
  - cbv zeta in Hs. apply (Hrun st); [assumption | | ].
    + exists b. assumption.
    + first [exact Hs | rewrite Hb; exact Hs].
  - destruct (malloc STATE_MAX_SIZE) as [b |] eqn:Ha.
    + cbv zeta in Hs. apply (Hrun (set_state_buffer st (Some b))).
      * unfold statics_ok. session_simpl. repeat split; auto.
        intros b0 H0. inversion H0. subst b0. apply (Hm _ _ Ha).
      * exists b. reflexivity.
      * exact Hs.
    + inversion Hs. subst. assumption.
Qed.

Lemma statics_ok_restored (core : Z -> serializer) (st st' : web_state)
    (r : Z) :
  statics_ok st -> pico_state_load core st = Ok (r, st') -> statics_ok st'.
Proof.
  intros Hok Hl. unfold pico_state_load in Hl.
  destruct (game_loaded st =? 0); [inversion Hl; subst; assumption |].
  destruct (state_buffer st); [| inversion Hl; subst; assumption].
  destruct (state_size st =? 0); [inversion Hl; subst; assumption |].
  cbv zeta in Hl.
  destruct (PicoStateFP _ _ _ _ _ _ _) as [[ret c] |]; cbn [bind] in Hl;
    [| discriminate].
  destruct (negb (ret =? 0)); inversion Hl; subst;
    apply (statics_ok_touch st); auto using emit_cannot_touch.
Qed.

(** Take the next call into the core out of a run that returned. *)
Ltac invoke_step H :=
  match type of H with
  | context [core_invoke ?w ?cm ?c ?s] =>
      let E := fresh "E" in
      let s' := fresh "s" in
      destruct (core_invoke w cm c s) as [s' |] eqn:E;
      cbn [bind] in H; [| discriminate H];
      apply core_invoke_spec in E; session_simpl;
      destruct E as (? & ? & ? & ? & ?)
  end.

(** Carry [statics_ok] across the calls taken out so far. *)
Ltac carry_ok :=
  repeat match goal with
         | Hok : statics_ok ?a, Ht : core_cannot_touch ?a ?b |- _ =>
             pose proof (statics_ok_touch a b Hok Ht); clear Ht
         end.

Lemma pico_init_ok (window : host_window) (cm : core_model)
    (s s' : session) (r : Z) :
  session_ok s -> pico_init window cm s = Ok (r, s') ->
  session_ok s' /\ r = 1 /\ emu_initialized (web s') = 1 /\
  game_loaded (web s') = game_loaded (web s).
Proof.
  unfold session_ok, pico_init. intros Hok H.
  destruct (Z.eqb_spec (emu_initialized (web s)) 0) as [Hz | Hnz];
    cbn [negb] in H.
  - cbv zeta in H. do 5 invoke_step H.
    inversion H. subst r s'. session_simpl.
    repeat match goal with
           | Ht : core_cannot_touch _ _ |- _ =>
               pose proof Ht as (_ & _ & ? & _); revert Ht
           end; intros. carry_ok.
    split; [apply statics_ok_initialized; assumption |].
    split; [reflexivity |]. split; [reflexivity | congruence].
  - inversion H. subst.
    split; [assumption |]. split; [reflexivity |]. split; [| reflexivity].
    destruct Hok as ([ | ] & _); [contradiction | assumption].
Qed.

Lemma pico_exit_ok (window : host_window) (cm : core_model)
    (s s' : session) :
  session_ok s -> pico_exit window cm s = Ok s' ->
  session_ok s' /\ emu_initialized (web s') = 0 /\ game_loaded (web s') = 0.
Proof.
  unfold session_ok, pico_exit. intros Hok H.
  destruct (Z.eqb_spec (emu_initialized (web s)) 0) as [Hz | Hnz].
  - inversion H. subst.
    split; [assumption |]. split; [assumption |].
    destruct Hok as (_ & [Hg | Hg] & Hgi & _); [assumption |].
    apply Hgi in Hg. congruence.
  - cbv zeta in H.
    assert (Hweb : web (match rom_data s with
                        | Some _ => set_rom s None 0
                        | None => s
                        end) = web s) by (destruct (rom_data s); reflexivity).
    invoke_step H. inversion H. subst s'. session_simpl.
    rewrite Hweb in *. carry_ok.
    split; [apply statics_ok_exited; assumption |].
    split; reflexivity.
Qed.


Lemma pico_load_rom_media_ok (window : host_window) (cm : core_model)
    (filename rom : buffer) (s s' : session) (r : Z) :
  statics_ok (web s) ->
  game_loaded (web s) = 0 ->
  emu_initialized (web s) <> 0 ->
  pico_load_rom_media window cm filename rom s = Ok (r, s') ->
  statics_ok (web s') /\ (r = 0 \/ r = 1) /\ game_loaded (web s') = r /\
  emu_initialized (web s') = emu_initialized (web s) /\
  rom_data s' = rom_data s /\ rom_size s' = rom_size s /\
  r = (if media_type cm (length (core_log s)) <=? 0 then 0 else 1) /\
  (r = 0 ->
   core_log s' = core_log s
                 ++ [Core_PicoLoadMedia filename rom (rom_size s)]) /\
  exists rest,
    core_log s' = core_log s
                  ++ Core_PicoLoadMedia filename rom (rom_size s) :: rest.
Proof.
  intros Hok Hg Hi H. unfold pico_load_rom_media in H. cbv zeta in H.
  invoke_step H.
  match goal with
  | Ht : core_cannot_touch (web s) _ |- _ =>
      pose proof Ht as (_ & Hi0 & Hg0 & _)
  end.
  carry_ok.
  destruct (media_type cm (length (core_log s)) <=? 0).
  { inversion H. subst r s'.
    split; [assumption |]. split; [auto |].
    split; [congruence |]. split; [congruence |].
    split; [assumption |]. split; [assumption |].
    split; [reflexivity |]. split; [intros _; assumption |].
    exists []. assumption. }
  invoke_step H.
  match goal with
  | Ht : core_cannot_touch (web s0) _ |- _ =>
      pose proof Ht as (_ & Hi1 & _)
  end.
  carry_ok.
  match goal with
  | Hk : statics_ok (web ?a) |- _ =>
      lazymatch a with
      | s => fail
      | s0 => fail
      | _ => pose proof (statics_ok_snd_cleared (web a)
                           (SND_MAX_SAMPLES * 2 * 2) Hk) as Hcl
      end
  end.
  invoke_step H.
  match goal with
  | Ht : core_cannot_touch (set_snd_buffer _ _) _ |- _ =>
      pose proof Ht as (_ & Hi2 & _)
  end.
  session_simpl. carry_ok.
  invoke_step H.
  match goal with
  | Ht : core_cannot_touch _ _ |- _ => pose proof Ht as (_ & Hi3 & _)
  end.
  carry_ok.
  invoke_step H.
  match goal with
  | Ht : core_cannot_touch _ _ |- _ => pose proof Ht as (_ & Hi4 & _)
  end.
  carry_ok.
  assert (Hset : statics_ok (set_game_loaded (web s4) 1))
    by (apply statics_ok_loaded; [assumption | congruence]).
  assert (Hlog : forall sz tail,
            core_log sz = core_log s4 ++ tail ->
            exists rest,
              core_log sz
              = core_log s
                ++ Core_PicoLoadMedia filename rom (rom_size s) :: rest).
  { intros sz tail Hsz. eexists.
    rewrite Hsz, H24, H19, H14, H9, H4, <- !app_assoc. reflexivity. }
  destruct (wants_32x cm (length (core_log s4)));
    [destruct (has_32x_extension filename) |].
  - do 2 invoke_step H. inversion H. subst r s'.
    repeat match goal with
           | Ht : core_cannot_touch _ _ |- _ =>
               pose proof Ht as (_ & ? & ? & _); revert Ht
           end; intros. carry_ok. session_simpl.
    split; [assumption |]. split; [auto |].
    split; [congruence |]. split; [congruence |].
    split; [congruence |]. split; [congruence |].
    split; [reflexivity |]. split; [intros Hc; discriminate Hc |].
    apply (Hlog _ [Core_Pico32xStartup; Core_p32x_reset_sh2s]).
    match goal with
    | Ha : core_log ?a = core_log ?b ++ [Core_p32x_reset_sh2s],
      Hb : core_log ?b = core_log s4 ++ [Core_Pico32xStartup] |- _ =>
        rewrite Ha, Hb, <- app_assoc; reflexivity
    end.
  - cbn [bind] in H. inversion H. subst r s'. session_simpl.
    split; [assumption |]. split; [auto |].
    split; [reflexivity |]. split; [congruence |].
    split; [congruence |]. split; [congruence |].
    split; [reflexivity |]. split; [intros Hc; discriminate Hc |].
    apply (Hlog _ []). session_simpl. now rewrite app_nil_r.
  - cbn [bind] in H. inversion H. subst r s'. session_simpl.
    split; [assumption |]. split; [auto |].
    split; [reflexivity |]. split; [congruence |].
    split; [congruence |]. split; [congruence |].
    split; [reflexivity |]. split; [intros Hc; discriminate Hc |].
    apply (Hlog _ []). session_simpl. now rewrite app_nil_r.
Qed.

Lemma pico_load_rom_ok (window : host_window) (cm : core_model)
    (filename : buffer) (s s' : session) (r : Z) :
  session_ok s -> pico_load_rom window cm filename s = Ok (r, s') ->
  session_ok s'.
Proof.
  unfold session_ok, pico_load_rom. intros Hok H.
  destruct (Z.eqb_spec (emu_initialized (web s)) 0) as [Hz | Hnz];
    [inversion H; subst; assumption |].
  destruct (rom_data s) as [rom |]; [| inversion H; subst; assumption].
  destruct (rom_size s =? 0); [inversion H; subst; assumption |].
  destruct (Z.eqb_spec (game_loaded (web s)) 0) as [Hg | Hg];
    cbn [negb bind] in H.
  - apply (pico_load_rom_media_ok _ _ _ _ _ _ _ Hok Hg Hnz H).
  - invoke_step H.
    match goal with
    | Ht : core_cannot_touch (web s) _ |- _ =>
        pose proof Ht as (_ & Hi0 & _)
    end.
    carry_ok.
    refine (proj1 (pico_load_rom_media_ok _ _ _ _ _ _ _ _ _ _ H));
      session_simpl.
    + apply statics_ok_unloaded. assumption.
    + reflexivity.
    + congruence.
Qed.

Lemma api_step_ok (window : host_window) (cm : core_model)
    (malloc : Z -> option buffer) (c : api_call) (s s' : session) :
  malloc_exact malloc -> session_ok s ->
  api_step window cm malloc c s = Ok s' -> session_ok s'.
Proof.
  intros Hm Hok H. destruct c; simpl in H.
  - destruct (pico_init window cm s) as [[r s1] |] eqn:E;
      cbn [bind] in H; [| discriminate].
    inversion H. subst. apply (pico_init_ok _ _ _ _ _ Hok E).
  - apply (pico_exit_ok _ _ _ _ Hok H).
  - inversion H. subst. exact Hok.
  - destruct (pico_load_rom window cm filename s) as [[r s1] |] eqn:E;
      cbn [bind] in H; [| discriminate].
    inversion H. subst. apply (pico_load_rom_ok _ _ _ _ _ _ Hok E).
  - unfold pico_reset in H.
    destruct (negb (game_loaded (web s) =? 0)).
    + unfold session_ok in *. invoke_step H. inversion H. subst.
      carry_ok. assumption.
    + inversion H. subst. exact Hok.
  - destruct (pico_set_input pad buttons (web s)) as [w |] eqn:E;
      cbn [bind] in H; [| discriminate].
    inversion H. subst. unfold session_ok in *. session_simpl.
    apply (statics_ok_input _ _ _ _ Hok E).
  - unfold pico_run_frame in H.
    destruct (game_loaded (web s) =? 0).
    + inversion H. subst. exact Hok.
    + cbv zeta in H. unfold session_ok in *. invoke_step H.
      inversion H. subst. session_simpl. carry_ok. assumption.
  - unfold pico_set_region in H. cbv zeta in H. session_simpl.
    destruct (negb (game_loaded (web s) =? 0)).
    + unfold session_ok in *. do 3 invoke_step H. inversion H. subst.
      carry_ok. assumption.
    + inversion H. subst. exact Hok.
  - destruct (pico_state_save prog malloc (web s)) as [[r w] |] eqn:E;
      cbn [bind] in H; [| discriminate].
    inversion H. subst. unfold session_ok in *. session_simpl.
    apply (statics_ok_saved _ _ _ _ _ Hm Hok E).
  - inversion H. subst. unfold session_ok in *. session_simpl.
    apply statics_ok_declared; assumption.
  - destruct (pico_state_load prog (web s)) as [[r w] |] eqn:E;
      cbn [bind] in H; [| discriminate].
    inversion H. subst. unfold session_ok in *. session_simpl.
    apply (statics_ok_restored _ _ _ _ Hok E).
Qed.

Lemma initial_session_ok : session_ok initial_session.
Proof.
  unfold session_ok, statics_ok. cbn [web initial_session].
  unfold initial_state. session_simpl.
  repeat split; auto using repeat_length; try discriminate.
Qed.

(** X17.  Every session reached from the initial one by any sequence of
    entry-point calls, with any behaviour of the core and any allocator
    that hands out blocks of the size asked for, satisfies the invariant:
    the two flags are 0 or 1, a game is loaded only while the emulator is
    initialised, the pixel, sample and input arrays have their declared
    sizes, and an allocated state buffer has STATE_MAX_SIZE bytes. *)
Theorem reachable_sessions_ok (window : host_window) (cm : core_model)
    (malloc : Z -> option buffer) (calls : list api_call) (s : session) :
  malloc_exact malloc ->
  api_run window cm malloc calls initial_session = Ok s ->
  session_ok s.
Proof.
  intros Hm. generalize initial_session_ok. generalize initial_session.
  induction calls as [| c calls IH]; intros s0 Hok H; simpl in H.
  - inversion H. subst. exact Hok.
  - destruct (api_step window cm malloc c s0) as [s1 |] eqn:E;
      cbn [bind] in H; [| discriminate].
    apply (IH s1); [| exact H].
    apply (api_step_ok _ _ _ _ _ _ Hm Hok E).
Qed.

Lemma small_malloc_exact : malloc_exact small_malloc.
Proof.
  intros n b H. unfold small_malloc in H.
  destruct ((0 <=? n) && (n <=? 4096)) eqn:E; [| discriminate].
  inversion H. apply andb_true_iff in E. destruct E as [E _].
  apply Z.leb_le in E. unfold blen. rewrite repeat_length. lia.
Qed.


Lemma playing_session_ok : session_ok playing_session.
Proof.
  unfold session_ok, statics_ok, playing_session. cbn [web].
  session_simpl. unfold initial_state. session_simpl.
  repeat split; auto using repeat_length; try discriminate.
Qed.

Lemma reachable_sessions_ok_witness : session_ok played_session.
Proof.
  apply (reachable_sessions_ok page_with_handlers quiet_core small_malloc
           [Api_init; Api_get_rom_buffer 1024; Api_set_input 0 129;
            Api_load_rom sample_filename; Api_run_frame]).
  - exact small_malloc_exact.
  - reflexivity.
Defined.

(** X18.  After [pico_exit] both flags are 0 and, if the emulator had been
    initialised, the ROM buffer is gone; from then on [pico_run_frame],
    [pico_reset] and a second [pico_exit] do nothing, [pico_load_rom],
    [pico_state_save] and [pico_state_load] return 0 without any effect,
    and [pico_get_rom_name] returns the empty string. *)
Theorem pico_exit_ends_session (window : host_window) (cm : core_model)
    (s s' : session) :
  session_ok s ->
  pico_exit window cm s = Ok s' ->
  emu_initialized (web s') = 0 /\ game_loaded (web s') = 0 /\
  (emu_initialized (web s) = 0 \/ rom_data s' = None) /\
  (forall window' cm' filename,
     pico_run_frame window' cm' s' = Ok s' /\
     pico_reset window' cm' s' = Ok s' /\
     pico_exit window' cm' s' = Ok s' /\
     pico_load_rom window' cm' filename s' = Ok (0, s')) /\
  (forall core malloc media_id_header name,
     pico_state_save core malloc (web s') = Ok (0, web s') /\
     pico_state_load core (web s') = Ok (0, web s') /\
     pico_get_rom_name media_id_header name (web s') = Ok [x00]).
Proof.
  intros Hok H.
  destruct (pico_exit_ok _ _ _ _ Hok H) as (_ & Hi & Hg).
  split; [assumption |]. split; [assumption |].
  split.
  - unfold pico_exit in H.
    destruct (Z.eqb_spec (emu_initialized (web s)) 0) as [Hz | Hnz];
      [left; assumption | right].
    cbv zeta in H.
    assert (Hrom : rom_data (match rom_data s with
                             | Some _ => set_rom s None 0
                             | None => s
                             end) = None)
      by (destruct (rom_data s) eqn:E; [reflexivity | exact E]).
    invoke_step H. inversion H. subst s'. session_simpl. congruence.
  - split.
    + intros window' cm' filename.
      unfold pico_run_frame, pico_reset, pico_exit, pico_load_rom.
      rewrite Hi, Hg. repeat split.
    + intros core malloc media_id_header name.
      unfold pico_state_save, pico_state_load, pico_get_rom_name.
      rewrite Hg. repeat split.
Qed.

Lemma pico_exit_ends_session_witness :
  let s' := {| web := set_game_loaded
                        (set_emu_initialized (web playing_session) 0) 0;
               rom_data := None; rom_size := 0; frame_count := 41;
               core_log := [Core_PicoExit] |} in
  emu_initialized (web s') = 0 /\ game_loaded (web s') = 0 /\
  (emu_initialized (web playing_session) = 0 \/ rom_data s' = None) /\
  (forall window' cm' filename,
     pico_run_frame window' cm' s' = Ok s' /\
     pico_reset window' cm' s' = Ok s' /\
     pico_exit window' cm' s' = Ok s' /\
     pico_load_rom window' cm' filename s' = Ok (0, s')) /\
  (forall core malloc media_id_header name,
     pico_state_save core malloc (web s') = Ok (0, web s') /\
     pico_state_load core (web s') = Ok (0, web s') /\
     pico_get_rom_name media_id_header name (web s') = Ok [x00]).
Proof.
  apply (pico_exit_ends_session page_with_handlers quiet_core
           playing_session).
  - exact playing_session_ok.
  - reflexivity.
Defined.

(** X19.  Once [pico_load_rom] gets past its guards (initialised, ROM
    buffer present and not empty), it unloads the previous game if there
    was one and then asks the core to load the medium; it returns 1 when
    [PicoLoadMedia] answered a positive media type and 0 otherwise, and
    [game_loaded] ends up equal to the value returned, whatever else the
    core does: 0 after a failed load even if a game had been loaded before.
    After a failed load nothing more has been asked of the core. *)
Theorem pico_load_rom_flag_is_result (window : host_window)
    (cm : core_model) (filename rom : buffer) (s s' : session) (r : Z) :
  session_ok s ->
  emu_initialized (web s) <> 0 ->
  rom_data s = Some rom ->
  rom_size s <> 0 ->
  pico_load_rom window cm filename s = Ok (r, s') ->
  let unloads :=
    if game_loaded (web s) =? 0 then [] else [Core_PicoCartUnload] in
  let answer :=
    media_type cm (length (core_log s) + length unloads)%nat in
  r = (if answer <=? 0 then 0 else 1) /\
  game_loaded (web s') = r /\
  (exists rest,
     core_log s'
     = core_log s ++ unloads
       ++ Core_PicoLoadMedia filename rom (rom_size s) :: rest) /\
  (r = 0 ->
   core_log s'
   = core_log s ++ unloads
     ++ [Core_PicoLoadMedia filename rom (rom_size s)]).
Proof.
  unfold session_ok, pico_load_rom. intros Hok Hi Hrom Hsz H.
  destruct (Z.eqb_spec (emu_initialized (web s)) 0); [contradiction |].
  rewrite Hrom in H.
  destruct (Z.eqb_spec (rom_size s) 0); [contradiction |].
  cbv zeta.
  destruct (Z.eqb_spec (game_loaded (web s)) 0) as [Hg | Hg];
    cbn [negb bind] in H.
  - destruct (pico_load_rom_media_ok _ _ _ _ _ _ _ Hok Hg Hi H)
      as (_ & _ & Hgl & _ & _ & _ & Hr & Hfail & rest & Hlog).
    cbn [length app]. rewrite Nat.add_0_r.
    split; [assumption |]. split; [assumption |].
    split; [exists rest; assumption | assumption].
  - invoke_step H.
    match goal with
    | Ht : core_cannot_touch (web s) _ |- _ =>
        pose proof Ht as (_ & Hi0 & _)
    end.
    carry_ok.
    match type of H with
    | pico_load_rom_media _ _ _ _ ?s1 = _ =>
        assert (Hok1 : statics_ok (web s1))
          by (session_simpl; apply statics_ok_unloaded; assumption);
        assert (Hg1 : game_loaded (web s1) = 0) by reflexivity;
        assert (Hi1 : emu_initialized (web s1) <> 0)
          by (session_simpl; congruence);
        destruct (pico_load_rom_media_ok _ _ _ _ _ _ _ Hok1 Hg1 Hi1 H)
          as (_ & _ & Hgl & _ & _ & _ & Hr & Hfail & rest & Hlog)
    end.
    session_simpl.
    match goal with
    | Hl : core_log _ = core_log s ++ [Core_PicoCartUnload],
      Hz : rom_size _ = rom_size s |- _ =>
        rewrite Hl, Hz, <- ?app_assoc in Hlog, Hfail;
        rewrite Hl, length_app in Hr
    end.
    cbn [length app] in *.
    split; [assumption |]. split; [assumption |].
    split; [exists rest; assumption | assumption].
Qed.

Lemma pico_load_rom_flag_is_result_witness :
  let s' := {| web := set_game_loaded (web playing_session) 0;
               rom_data := Some (repeat x00 16); rom_size := 16;
               frame_count := 41;
               core_log := [Core_PicoCartUnload;
                            Core_PicoLoadMedia sample_filename
                              (repeat x00 16) 16] |} in
  let unloads :=
    if game_loaded (web playing_session) =? 0
    then [] else [Core_PicoCartUnload] in
  let answer :=
    media_type rejecting_core
      (length (core_log playing_session) + length unloads)%nat in
  0 = (if answer <=? 0 then 0 else 1) /\
  game_loaded (web s') = 0 /\
  (exists rest,
     core_log s'
     = core_log playing_session ++ unloads
       ++ Core_PicoLoadMedia sample_filename (repeat x00 16)
            (rom_size playing_session) :: rest) /\
  (0 = 0 ->
   core_log s'
   = core_log playing_session ++ unloads
     ++ [Core_PicoLoadMedia sample_filename (repeat x00 16)
           (rom_size playing_session)]).
Proof.
  apply (pico_load_rom_flag_is_result page_with_handlers rejecting_core
           sample_filename (repeat x00 16) playing_session).
  - exact playing_session_ok.
  - vm_compute. discriminate.
  - reflexivity.
  - vm_compute. discriminate.
  - reflexivity.
Defined.

(** X20.  With a game loaded, [pico_run_frame] hands the core the two
    stored button masks, pad 0 first, then runs exactly one frame and
    counts it; the stored masks are still there afterwards, so held
    buttons carry over to the next frame. *)
Theorem pico_run_frame_latches_input (window : host_window)
    (cm : core_model) (s s' : session) (a b : Z) :
  game_loaded (web s) <> 0 ->
  input_state (web s) = [a; b] ->
  pico_run_frame window cm s = Ok s' ->
  core_log s' = core_log s ++ [Core_pad 0 a; Core_pad 1 b; Core_PicoFrame] /\
  frame_count s' = to_int (frame_count s + 1) /\
  input_state (web s') = [a; b] /\
  game_loaded (web s') = game_loaded (web s).
Proof.
  intros Hg Hin H. unfold pico_run_frame in H.
  destruct (Z.eqb_spec (game_loaded (web s)) 0); [contradiction |].
  cbv zeta in H. rewrite Hin in H. cbn [nth] in H.
  invoke_step H. inversion H. subst s'. session_simpl.
  match goal with
  | Ht : core_cannot_touch (web s) _ |- _ =>
      destruct Ht as (Hin' & _ & Hg' & _)
  end.
  rewrite Hin in *. cbn [nth] in *.
  split.
  - match goal with
    | Hl : core_log _ = _ |- _ => rewrite Hl, <- !app_assoc; reflexivity
    end.
  - split; [congruence |]. split; congruence.
Qed.

Lemma pico_run_frame_latches_input_witness :
  let s' := {| web := web playing_session;
               rom_data := Some (repeat x00 16); rom_size := 16;
               frame_count := 42;
               core_log := [Core_pad 0 129; Core_pad 1 64;
                            Core_PicoFrame] |} in
  core_log s'
    = core_log playing_session
      ++ [Core_pad 0 129; Core_pad 1 64; Core_PicoFrame] /\
  frame_count s' = to_int (frame_count playing_session + 1) /\
  input_state (web s') = [129; 64] /\
  game_loaded (web s') = game_loaded (web playing_session).
Proof.
  apply (pico_run_frame_latches_input page_with_handlers quiet_core
           playing_session).
  - vm_compute. discriminate.
  - reflexivity.
  - reflexivity.
Defined.

(** X21.  [pico_init] always returns 1 and leaves the emulator
    initialised without touching [game_loaded]; called again, with any
    page and any core, it returns 1 and changes nothing, not even the log
    of calls into the core. *)
Theorem pico_init_idempotent (window : host_window) (cm : core_model)
    (s s' : session) (r : Z) :
  session_ok s ->
  pico_init window cm s = Ok (r, s') ->
  r = 1 /\ emu_initialized (web s') = 1 /\
  game_loaded (web s') = game_loaded (web s) /\
  forall window' cm', pico_init window' cm' s' = Ok (1, s').
Proof.
  intros Hok H.
  destruct (pico_init_ok _ _ _ _ _ Hok H) as (_ & Hr & Hi & Hg).
  repeat split; try assumption.
  intros window' cm'. unfold pico_init. rewrite Hi. reflexivity.
Qed.

Lemma pico_init_idempotent_witness :
  let s' := {| web := set_emu_initialized initial_state 1;
               rom_data := None; rom_size := 0; frame_count := 0;
               core_log := firstn 11 (core_log played_session) |} in
  1 = 1 /\ emu_initialized (web s') = 1 /\
  game_loaded (web s') = game_loaded (web initial_session) /\
  forall window' cm', pico_init window' cm' s' = Ok (1, s').
Proof.
  apply (pico_init_idempotent page_with_handlers quiet_core
           initial_session).
  - exact initial_session_ok.
  - reflexivity.
Defined.
